(** * A shallow embedding of the process execution core of process-mcp

    Sources embedded here:
    - src/unnamed/part_002: [HostExecutor] and the helpers of
      executors/interface.ts ([parseEscapeSequences], [renderTerminalBuffer],
      [truncateOutput]);
    - src/src/executors/docker-executor.ts: [DockerExecutor];
    - src/src/registry/process-registry.ts (= src/unnamed/part_003):
      [ProcessRegistry];
    - src/src/types/process.ts: [Process], [SpawnResult] and the constants.

    A JavaScript string is a sequence of UTF-16 code units; it is modelled
    as a list of [Z], one element per code unit, so that [length],
    [slice] and [String.fromCharCode] keep their JavaScript meaning. *)

From Stdlib Require Import ZArith String Ascii Bool Lia List Permutation Sorting.
Import ListNotations.
Open Scope Z_scope.

(** ** JavaScript strings *)

Definition jsstr := list Z.

(** ASCII literal text as a JavaScript string. *)
Definition js (s : string) : jsstr :=
  map (fun c => Z.of_nat (nat_of_ascii c)) (list_ascii_of_string s).

Definition backslash : Z := 92.
Definition newline : Z := 10.

(** [s.length] *)
Definition js_length (s : jsstr) : Z := Z.of_nat (length s).

(** [a.slice(k)] for arrays and strings: a negative start counts from the
    end, and the start is clamped to [0 .. length]. *)
Definition js_slice_from {A} (k : Z) (l : list A) : list A :=
  let len := Z.of_nat (length l) in
  let start := if k <? 0 then Z.max (len + k) 0 else Z.min k len in
  skipn (Z.to_nat start) l.

(** [s.split("\n")]: the segments between newlines; [""] splits to [[""]]. *)
Fixpoint split_nl (s : jsstr) : list jsstr :=
  match s with
  | [] => [[]]
  | c :: r =>
      let parts := split_nl r in
      if c =? newline then [] :: parts
      else match parts with
           | p :: ps => (c :: p) :: ps
           | [] => [[c]]
           end
  end.

(** [parts.join("\n")] *)
Fixpoint join_nl (parts : list jsstr) : jsstr :=
  match parts with
  | [] => []
  | [p] => p
  | p :: ps => p ++ newline :: join_nl ps
  end.

(** ** [truncateOutput] (executors/interface.ts) *)

Definition OUTPUT_TRUNCATE : Z := 8196.

Definition truncation_marker : jsstr := newline :: js "... (truncated)".

Definition truncateOutput (output : jsstr) : jsstr :=
  if js_length output <=? OUTPUT_TRUNCATE then output
  else js_slice_from (- OUTPUT_TRUNCATE) output ++ truncation_marker.

(** ** [parseEscapeSequences] (executors/interface.ts)

    Each [.replace(/re/g, f)] is one left-to-right scan: at every position
    the pattern is tried; on a match the replacement is emitted and the scan
    resumes after the match, otherwise the character is kept and the scan
    moves one position on. *)

Definition is_hex (c : Z) : bool :=
  ((48 <=? c) && (c <=? 57)) || ((65 <=? c) && (c <=? 70)) || ((97 <=? c) && (c <=? 102)).

(** [parseInt(h, 16)] of one hexadecimal digit *)
Definition hex_val (c : Z) : Z :=
  if (48 <=? c) && (c <=? 57) then c - 48
  else if (65 <=? c) && (c <=? 70) then c - 55
  else c - 87.

(** [.replace(/\\c/g, out)] for a single letter [c] *)
Fixpoint replace_esc (c out : Z) (s : jsstr) : jsstr :=
  match s with
  | [] => []
  | a :: t =>
      match t with
      | b :: r =>
          if (a =? backslash) && (b =? c) then out :: replace_esc c out r
          else a :: replace_esc c out t
      | [] => [a]
      end
  end.

(** [.replace(/\\x([0-9A-Fa-f]{2})/g, (_, hex) => String.fromCharCode(parseInt(hex, 16)))] *)
Fixpoint replace_hex2 (s : jsstr) : jsstr :=
  match s with
  | [] => []
  | a :: t =>
      match t with
      | b :: h1 :: h2 :: r =>
          if (a =? backslash) && (b =? 120) && is_hex h1 && is_hex h2
          then (16 * hex_val h1 + hex_val h2) :: replace_hex2 r
          else a :: replace_hex2 t
      | _ => a :: replace_hex2 t
      end
  end.

(** [.replace(/\\u([0-9A-Fa-f]{4})/g, (_, hex) => String.fromCharCode(parseInt(hex, 16)))] *)
Fixpoint replace_hex4 (s : jsstr) : jsstr :=
  match s with
  | [] => []
  | a :: t =>
      match t with
      | b :: h1 :: h2 :: h3 :: h4 :: r =>
          if (a =? backslash) && (b =? 117) && is_hex h1 && is_hex h2
             && is_hex h3 && is_hex h4
          then (4096 * hex_val h1 + 256 * hex_val h2 + 16 * hex_val h3 + hex_val h4)
                 :: replace_hex4 r
          else a :: replace_hex4 t
      | _ => a :: replace_hex4 t
      end
  end.

Definition parseEscapeSequences (input : jsstr) : jsstr :=
  replace_hex4
    (replace_hex2
       (replace_esc 116 9
          (replace_esc 114 13
             (replace_esc 110 10 input)))).


(** ** Terminal emulator

    The emulator is the external [@xterm/headless] library; the code uses
    three of its operations: creation, [terminal.write(text)] and reading the
    lines of [terminal.buffer.active] with [translateToString(true)].  The
    model keeps the emulation abstract behind this interface: every result
    below holds for every emulator. *)

Class TerminalEmu (T : Type) := {
  term_new : T;
  term_write : T -> jsstr -> T;
  term_lines : T -> list jsstr
}.

(** The options of [new Terminal({ cols: TERMINAL_COLS, rows: TERMINAL_ROWS })],
    the one way both [spawn]s build a terminal: [allowProposedApi] is not
    given, so it keeps its default [false]. *)
Record TerminalOptions := mkTerminalOptions {
  cols : Z;
  rows : Z;
  allowProposedApi : bool
}.

Definition TERMINAL_COLS : Z := 120.
Definition TERMINAL_ROWS : Z := 30.

Definition terminal_options : TerminalOptions :=
  mkTerminalOptions TERMINAL_COLS TERMINAL_ROWS false.

Section Terminal.
Context {T : Type} `{TerminalEmu T}.

(** [terminal.buffer.active]: the [buffer] getter of [@xterm/headless]
    starts with [_checkProposedApi()], which throws unless the terminal was
    built with [allowProposedApi]; [None] is that exception. *)
Definition buffer_active (t : T) : option (list jsstr) :=
  if allowProposedApi terminal_options then Some (term_lines t) else None.

(** [buffer.getLine(i)] *)
Definition getLine (lines : list jsstr) (i : nat) : option jsstr := nth_error lines i.

(** [renderTerminalBuffer]: reads [terminal.buffer.active] (and throws
    where that throws), then joins with newlines every line
    [0 .. buffer.length - 1] that [getLine] returns, converted to text. *)
Definition renderTerminalBuffer (t : T) : option jsstr :=
  option_map join_nl (buffer_active t).

End Terminal.

(** ** Process entities (types/process.ts) *)

Inductive Status := Running | Terminated.

Definition status_eqb (a b : Status) : bool :=
  match a, b with
  | Running, Running | Terminated, Terminated => true
  | _, _ => false
  end.

(** The streams are [PassThrough]s: [stdinStream] is modelled by the text
    written to it, the ends of the three streams by [streams_ended].
    [promise] records whether [process.promise] was assigned. *)
Record Process (T : Type) := mkProcess {
  pid : string;
  command : string;
  cwd : string;
  env : list (string * string);
  tty : bool;
  status : Status;
  createdAt : Z;
  exitCode : option Z;
  stdinStream : jsstr;
  streams_ended : bool;
  stdout : jsstr;
  stderr : jsstr;
  terminal : option T;
  promise : bool
}.
Arguments mkProcess {T}.
Arguments pid {T}. Arguments command {T}. Arguments cwd {T}. Arguments env {T}.
Arguments tty {T}. Arguments status {T}. Arguments createdAt {T}.
Arguments exitCode {T}. Arguments stdinStream {T}. Arguments streams_ended {T}.
Arguments stdout {T}. Arguments stderr {T}. Arguments terminal {T}.
Arguments promise {T}.

(** Functional record updates of the fields the executors assign. *)
Section Updates.
Context {T : Type}.

Definition set_status (s : Status) (p : Process T) : Process T :=
  mkProcess p.(pid) p.(command) p.(cwd) p.(env) p.(tty) s p.(createdAt)
    p.(exitCode) p.(stdinStream) p.(streams_ended) p.(stdout) p.(stderr)
    p.(terminal) p.(promise).

Definition set_exitCode (c : option Z) (p : Process T) : Process T :=
  mkProcess p.(pid) p.(command) p.(cwd) p.(env) p.(tty) p.(status) p.(createdAt)
    c p.(stdinStream) p.(streams_ended) p.(stdout) p.(stderr)
    p.(terminal) p.(promise).

Definition set_stdinStream (s : jsstr) (p : Process T) : Process T :=
  mkProcess p.(pid) p.(command) p.(cwd) p.(env) p.(tty) p.(status) p.(createdAt)
    p.(exitCode) s p.(streams_ended) p.(stdout) p.(stderr)
    p.(terminal) p.(promise).

Definition end_streams (p : Process T) : Process T :=
  mkProcess p.(pid) p.(command) p.(cwd) p.(env) p.(tty) p.(status) p.(createdAt)
    p.(exitCode) p.(stdinStream) true p.(stdout) p.(stderr)
    p.(terminal) p.(promise).

Definition set_stdout (s : jsstr) (p : Process T) : Process T :=
  mkProcess p.(pid) p.(command) p.(cwd) p.(env) p.(tty) p.(status) p.(createdAt)
    p.(exitCode) p.(stdinStream) p.(streams_ended) s p.(stderr)
    p.(terminal) p.(promise).

Definition set_stderr (s : jsstr) (p : Process T) : Process T :=
  mkProcess p.(pid) p.(command) p.(cwd) p.(env) p.(tty) p.(status) p.(createdAt)
    p.(exitCode) p.(stdinStream) p.(streams_ended) p.(stdout) s
    p.(terminal) p.(promise).

Definition set_terminal (t : option T) (p : Process T) : Process T :=
  mkProcess p.(pid) p.(command) p.(cwd) p.(env) p.(tty) p.(status) p.(createdAt)
    p.(exitCode) p.(stdinStream) p.(streams_ended) p.(stdout) p.(stderr)
    t p.(promise).

Definition set_promise (b : bool) (p : Process T) : Process T :=
  mkProcess p.(pid) p.(command) p.(cwd) p.(env) p.(tty) p.(status) p.(createdAt)
    p.(exitCode) p.(stdinStream) p.(streams_ended) p.(stdout) p.(stderr)
    p.(terminal) b.

End Updates.

(** [process.getTerminalBuffer()], the closure built by both [spawn]s;
    [None] when it throws. *)
Definition getTerminalBuffer {T} `{TerminalEmu T} (p : Process T) : option jsstr :=
  match p.(terminal) with
  | None => Some []
  | Some t => match buffer_active t with
              | None => None
              | Some lines => match getLine lines 0 with
                              | Some _ => renderTerminalBuffer t
                              | None => Some []
                              end
              end
  end.

(** ** Results (lib/error.ts) *)

Inductive ErrorCode :=
  | initialization_failed | spawn_failed | process_not_found | not_tty
  | process_terminated | stdin_failed | kill_failed | container_not_found
  | config_missing | stream_not_found.

Inductive Result (A : Type) :=
  | ok (value : A)
  | err (code : ErrorCode).
Arguments ok {A}. Arguments err {A}.

(** How a synchronous call ends: it returns a value, or an exception
    propagates out of it. *)
Inductive Completion (A : Type) :=
  | normal (value : A)
  | thrown.
Arguments normal {A}. Arguments thrown {A}.

(** [ProcessInfo] (types/process.ts): what [ps] reports of an entity;
    [createdAt] is rendered by [Date.prototype.toISOString]. *)
Record ProcessInfo := mkProcessInfo {
  info_pid : string;
  info_command : string;
  info_status : Status;
  info_exitCode : option Z;
  info_cwd : string;
  info_tty : bool;
  info_createdAt : string
}.

(** The object returned by [getStats]. *)
Record Stats := mkStats { stats_running : nat; stats_terminated : nat; stats_total : nat }.

(** ** [ProcessRegistry] (registry/process-registry.ts)

    The [Map<string, Process>] is an association list in insertion order,
    keyed by the entity's [pid] ([add] uses [process.pid] as the key), so
    one entry per key. *)

Module ProcessRegistry.
Section Registry.
Context {T : Type}.

Definition registry := list (Process T).

Definition maxTerminatedProcesses : nat := 5.

(** [this.processes.get(pid)] *)
Definition get (k : string) (r : list (Process T)) : option (Process T) :=
  find (fun p => String.eqb p.(pid) k) r.

(** [this.processes.set(k, v)]: an existing key keeps its position. *)
Definition map_set (v : Process T) (r : list (Process T)) : registry :=
  if existsb (fun p => String.eqb p.(pid) v.(pid)) r
  then map (fun p => if String.eqb p.(pid) v.(pid) then v else p) r
  else r ++ [v].

(** [this.processes.delete(k)] *)
Definition delete (k : string) (r : list (Process T)) : registry :=
  filter (fun p => negb (String.eqb p.(pid) k)) r.

(** [Array.prototype.sort] with the comparator
    [(a, b) => b.createdAt.getTime() - a.createdAt.getTime()]: a stable
    sort, newest first; an element stays before an equal later one. *)
Fixpoint insert_desc (x : Process T) (l : list (Process T)) : list (Process T) :=
  match l with
  | [] => [x]
  | y :: l' => if y.(createdAt) <=? x.(createdAt) then x :: l
               else y :: insert_desc x l'
  end.

Fixpoint sort_desc (l : list (Process T)) : list (Process T) :=
  match l with
  | [] => []
  | x :: l' => insert_desc x (sort_desc l')
  end.

Definition is_terminated (p : Process T) : bool := status_eqb p.(status) Terminated.

(** The array of terminated entities, newest first. *)
Definition terminated_sorted (r : list (Process T)) : list (Process T) :=
  sort_desc (filter is_terminated r).

(** [pruneTerminated]: delete every entity of
    [terminated.slice(maxTerminatedProcesses)]. *)
Definition pruneTerminated (r : list (Process T)) : registry :=
  fold_left (fun acc p => delete p.(pid) acc)
    (skipn maxTerminatedProcesses (terminated_sorted r)) r.

(** [add] *)
Definition add (p : Process T) (r : list (Process T)) : registry :=
  pruneTerminated (map_set p r).

(** [clear] *)
Definition clear (r : list (Process T)) : registry := [].

(** [info(pid)] (src/unnamed/part_003); [toISOString] renders a time in
    milliseconds as [Date.prototype.toISOString] does. *)
Definition info (toISOString : Z -> string) (k : string) (r : list (Process T))
    : option ProcessInfo :=
  match get k r with
  | None => None
  | Some p =>
      Some (mkProcessInfo p.(pid) p.(command) p.(status) p.(exitCode) p.(cwd) p.(tty)
              (toISOString p.(createdAt)))
  end.

(** [getStats()]: one pass over the values; every status other than
    ["running"] counts as terminated; [total] is the map's [size]. *)
Definition getStats (r : list (Process T)) : Stats :=
  let counts :=
    fold_left (fun (acc : nat * nat) p =>
                 let '(running, terminated) := acc in
                 if status_eqb p.(status) Running then (S running, terminated)
                 else (running, S terminated))
              r (0%nat, 0%nat) in
  mkStats (fst counts) (snd counts) (length r).

(** [list()] of src/unnamed/part_003, the one the executors' [ps] calls:
    [Array.from(this.processes.values())], in insertion order. *)
Definition list_entries (r : list (Process T)) : list (Process T) := r.


End Registry.
End ProcessRegistry.

(** ** Types shared by the executors (types/process.ts, config.ts) *)

Definition MAX_TIMEOUT_MS : Z := 60000.
Definition DEFAULT_TIMEOUT_MS : Z := 10000.

Record SpawnOptions := mkSpawnOptions {
  opt_command : string;
  opt_cwd : option string;
  opt_env : option (list (string * string));
  opt_tty : option bool;
  opt_background : option bool;
  opt_timeoutMs : option Z
}.

(** [config.defaults] *)
Record Defaults := mkDefaults { workdir : string; defaultTimeoutMs : Z }.

Record SpawnResult := mkSpawnResult {
  res_pid : string;
  res_status : Status;
  res_exitCode : option Z;
  res_stdout : jsstr;
  res_stderr : jsstr
}.

(** Decimal rendering of the pid counter in [`host-${n}`]. *)
Fixpoint decimal_go (fuel n : nat) (acc : string) : string :=
  match fuel with
  | O => acc
  | S f =>
      let acc' := String (ascii_of_nat (48 + Nat.modulo n 10)) acc in
      if Nat.ltb n 10 then acc' else decimal_go f (Nat.div n 10) acc'
  end.

Definition decimal (n : nat) : string := decimal_go (S n) n EmptyString.

(** Updating the entity stored under [k]: the stream callbacks mutate the
    [process] object, which is the one held by the registry. *)
Definition update_entity {T} (k : string) (f : Process T -> Process T)
    (r : list (Process T)) : list (Process T) :=
  map (fun p => if String.eqb p.(pid) k then f p else p) r.

(** A fresh entity, as built by both [spawn]s before [registry.add]. *)
Definition new_process {T} `{TerminalEmu T} (k command cwd : string)
    (env : list (string * string)) (tty : bool) (now : Z) : Process T :=
  mkProcess k command cwd env tty Running now None [] false [] []
    (if tty then Some term_new else None) false.

(** ** Stream callbacks of [HostExecutor.spawn] on the entity *)

Section Callbacks.
Context {T : Type} `{TerminalEmu T}.

Definition write_terminal (text : jsstr) (p : Process T) : Process T :=
  set_terminal (option_map (fun t => term_write t text) p.(terminal)) p.

(** [childProcess.stdout.on("data", ...)] *)
Definition on_stdout_data (text : jsstr) (p : Process T) : Process T :=
  write_terminal text (set_stdout (p.(stdout) ++ text) p).

(** [childProcess.stderr.on("data", ...)] *)
Definition on_stderr_data (text : jsstr) (p : Process T) : Process T :=
  write_terminal text (set_stderr (p.(stderr) ++ text) p).

(** [childProcess.on("exit", (code) => ...)]: [code ?? undefined]; Node
    reports a [null] code when the child was ended by a signal. *)
Definition on_exit (code : option Z) (p : Process T) : Process T :=
  end_streams (set_exitCode code (set_status Terminated p)).

(** [childProcess.on("error", (error) => ...)] *)
Definition on_error (message : jsstr) (p : Process T) : Process T :=
  end_streams
    (set_stderr (p.(stderr) ++ newline :: js "Process error: " ++ message)
       (set_exitCode (Some 1) (set_status Terminated p))).

(** The [catch] of [spawn] *)
Definition on_spawn_failure (p : Process T) : Process T :=
  set_exitCode (Some 1) (set_status Terminated p).

(** [process.stdinStream.write(parsedInput)] *)
Definition write_stdin (text : jsstr) (p : Process T) : Process T :=
  set_stdinStream (p.(stdinStream) ++ text) p.

End Callbacks.

(** ** [HostExecutor] (src/unnamed/part_002) *)

(** What the spawned child does, as seen by the callbacks: each event comes
    with its time in milliseconds after the [spawn] call. *)
Inductive ChildEvent :=
  | ev_stdout (data : jsstr)
  | ev_stderr (data : jsstr)
  | ev_exit (code : option Z)
  | ev_error (message : jsstr).

(** ["exit"] and ["error"] resolve [completionPromise]. *)
Definition is_completion (e : ChildEvent) : bool :=
  match e with ev_exit _ | ev_error _ => true | _ => false end.

(** [spawn_throws]: [child_process.spawn] throws synchronously. *)
Record Child := mkChild {
  spawn_throws : bool;
  schedule : list (Z * ChildEvent)
}.

Module HostExecutor.
Section Host.
Context {T : Type} `{TerminalEmu T}.

Record HostState := mkHostState {
  registry : list (Process T);
  pidCounter : nat;
  childProcesses : list string;
  initialized : bool
}.

Definition with_registry (r : list (Process T)) (st : HostState) : HostState :=
  mkHostState r st.(pidCounter) st.(childProcesses) st.(initialized).

Definition with_children (c : list string) (st : HostState) : HostState :=
  mkHostState st.(registry) st.(pidCounter) c st.(initialized).

(** [this.childProcesses.delete(pid)] *)
Definition delete_child (k : string) (c : list string) : list string :=
  filter (fun j => negb (String.eqb j k)) c.

(** The entity held under [k], or [dflt] (the spawn's own [process]
    object) if the registry no longer has it. *)
Definition entity (st : HostState) (k : string) (dflt : Process T) : Process T :=
  match ProcessRegistry.get k st.(registry) with Some p => p | None => dflt end.

(** One callback of the child [k] running. *)
Definition deliver (k : string) (e : ChildEvent) (st : HostState) : HostState :=
  match e with
  | ev_stdout d => with_registry (update_entity k (on_stdout_data d) st.(registry)) st
  | ev_stderr d => with_registry (update_entity k (on_stderr_data d) st.(registry)) st
  | ev_exit c =>
      with_children (delete_child k st.(childProcesses))
        (with_registry (update_entity k (on_exit c) st.(registry)) st)
  | ev_error m =>
      with_children (delete_child k st.(childProcesses))
        (with_registry (update_entity k (on_error m) st.(registry)) st)
  end.

(** The event loop delivering the callbacks of [k] in order. *)
Definition run_events (k : string) (evs : list (Z * ChildEvent)) (st : HostState) : HostState :=
  fold_left (fun s te => deliver k (snd te) s) evs st.

(** [await Promise.race([completionPromise, timeoutPromise])] with the timer
    set to [actualTimeout]: the callbacks due before the timer run; the race
    ends right after the first completion callback, or when the timer fires.
    Returns whether completion won, the time the await ended, the state and
    the callbacks still to come. *)
Fixpoint race (k : string) (actualTimeout : Z) (evs : list (Z * ChildEvent))
    (st : HostState) : bool * Z * HostState * list (Z * ChildEvent) :=
  match evs with
  | [] => (false, actualTimeout, st, [])
  | (t, e) :: rest =>
      if t <? actualTimeout then
        let st' := deliver k e st in
        if is_completion e then (true, t, st', rest)
        else race k actualTimeout rest st'
      else (false, actualTimeout, st, evs)
  end.

(** [initialize]: sandbox failures are swallowed, so it succeeds. *)
Definition initialize (st : HostState) : HostState :=
  mkHostState st.(registry) st.(pidCounter) st.(childProcesses) true.

(** The spawn result built from the entity after the wait; [None] when
    [process.getTerminalBuffer()] throws while it is built. *)
Definition foreground_result (k : string) (tty : bool) (p : Process T) : option SpawnResult :=
  match (if tty then getTerminalBuffer p else Some p.(stdout)) with
  | None => None
  | Some out =>
      Some (mkSpawnResult k p.(status) p.(exitCode) (truncateOutput out)
              (truncateOutput p.(stderr)))
  end.

(** [spawn(options)] called at time [now]: the result, the state when the
    call returns, the callbacks still to be delivered after it returns, and
    how long the call waited.  An exception thrown by
    [child_process.spawn] or while the foreground result is built reaches
    the [catch], which marks the entity and returns [spawn_failed]; the
    child, if started, stays recorded and its callbacks still come. *)
Definition spawn (cfg : Defaults) (now : Z) (options : SpawnOptions) (child : Child)
    (st : HostState) : Result SpawnResult * HostState * list (Z * ChildEvent) * Z :=
  let st := if st.(initialized) then st else initialize st in
  let command := options.(opt_command) in
  let cwd := match options.(opt_cwd) with Some c => c | None => cfg.(workdir) end in
  let env := match options.(opt_env) with Some e => e | None => [] end in
  let tty := match options.(opt_tty) with Some b => b | None => false end in
  let background := match options.(opt_background) with Some b => b | None => false end in
  let timeoutMs := match options.(opt_timeoutMs) with Some t => t | None => cfg.(defaultTimeoutMs) end in
  let actualTimeout := Z.min timeoutMs MAX_TIMEOUT_MS in
  let k := String.append "host-" (decimal st.(pidCounter)) in
  let process := new_process k command cwd env tty now in
  let st := mkHostState (ProcessRegistry.add process st.(registry))
              (S st.(pidCounter)) st.(childProcesses) st.(initialized) in
  if child.(spawn_throws) then
    (err spawn_failed,
     with_registry (update_entity k on_spawn_failure st.(registry)) st, [], 0)
  else
    let st := with_children (st.(childProcesses) ++ [k]) st in
    if background then
      let st := with_registry (update_entity k (set_promise true) st.(registry)) st in
      let p := entity st k process in
      (ok (mkSpawnResult k Running None (truncateOutput p.(stdout))
             (truncateOutput p.(stderr))),
       st, child.(schedule), 0)
    else
      match race k actualTimeout child.(schedule) st with
      | (_, waited, st', rest) =>
          match foreground_result k tty (entity st' k process) with
          | Some r => (ok r, st', rest, waited)
          | None =>
              (err spawn_failed,
               with_registry (update_entity k on_spawn_failure st'.(registry)) st',
               rest, waited)
          end
      end.

(** [stdin(pid, input)] *)
Definition stdin (st : HostState) (k : string) (input : jsstr) : Result unit * HostState :=
  match ProcessRegistry.get k st.(registry) with
  | None => (err process_not_found, st)
  | Some p =>
      if negb p.(tty) then (err not_tty, st)
      else if negb (status_eqb p.(status) Running) then (err process_terminated, st)
      else
        let parsedInput := parseEscapeSequences input in
        (ok tt, with_registry (update_entity k (write_stdin parsedInput) st.(registry)) st)
  end.

(** [stdout(pid, lines = 100)]: nothing catches an exception of
    [getTerminalBuffer], so it propagates out of the call. *)
Definition stdout (st : HostState) (k : string) (lines : option Z)
    : Completion (Result (jsstr * jsstr)) :=
  let lines := match lines with Some n => n | None => 100 end in
  match ProcessRegistry.get k st.(registry) with
  | None => normal (err process_not_found)
  | Some p =>
      match (if p.(tty) && match p.(terminal) with Some _ => true | None => false end
             then getTerminalBuffer p else Some p.(stdout)) with
      | None => thrown
      | Some out =>
          let stdoutLines := split_nl out in
          let stderrLines := split_nl p.(stderr) in
          normal (ok (join_nl (js_slice_from (- lines) stdoutLines),
                      join_nl (js_slice_from (- lines) stderrLines)))
      end
  end.

(** [kill(pid, signal = "SIGTERM")].  [known_signal] tells which names
    [ChildProcess.kill] accepts; it throws [ERR_UNKNOWN_SIGNAL] on any other,
    which the [catch] turns into [kill_failed].  Nothing of the state is
    changed: the entity becomes terminated only through the ["exit"]
    callback the signal may cause. *)
Definition kill (known_signal : string -> bool) (st : HostState) (k signal : string)
    : Result unit :=
  match ProcessRegistry.get k st.(registry) with
  | None => err process_not_found
  | Some p =>
      if negb (status_eqb p.(status) Running) then err process_terminated
      else if negb (existsb (String.eqb k) st.(childProcesses)) then err process_not_found
      else if known_signal signal then ok tt
      else err kill_failed
  end.

(** [ps()]: [this.registry.list().map(p => this.registry.info(p.pid)!)];
    the [!] only silences the type checker, so a missing entry would be
    [undefined] ([None]). *)
Definition ps (toISOString : Z -> string) (st : HostState) : list (option ProcessInfo) :=
  map (fun p => ProcessRegistry.info toISOString p.(pid) st.(registry))
    (ProcessRegistry.list_entries st.(registry)).

(** [cleanup()]: every recorded child is sent [SIGTERM] (errors ignored),
    both maps are cleared and [initialized] is reset; [pidCounter] is
    kept.  Returns the pids signalled, in order, and the new state.  The
    sandbox reset acts outside this state. *)
Definition cleanup (st : HostState) : list string * HostState :=
  (st.(childProcesses), mkHostState [] st.(pidCounter) [] false).

End Host.
End HostExecutor.

(** ** [DockerExecutor] (src/src/executors/docker-executor.ts) *)

(** ** The [PID:<n>] marker of the container's stderr

    [wrappedCommand] makes the shell print [PID:$$] on stderr first; the
    non-TTY stderr handler strips it with [/PID:\d+\n?/]. *)

(** [\d] without the [u] flag: an ASCII digit *)
Definition is_digit (c : Z) : bool := (48 <=? c) && (c <=? 57).

(** The number of leading digits *)
Fixpoint digits_len (s : jsstr) : nat :=
  match s with
  | c :: r => if is_digit c then S (digits_len r) else O
  | [] => O
  end.

(** [/PID:\d+\n?/] tried at the start of [s]: [\d+] and [\n?] are greedy
    and never need to give back, so a match is ["PID:"], all the leading
    digits (at least one) and a newline if one follows; the text after the
    match is returned. *)
Definition marker_at (s : jsstr) : option jsstr :=
  match s with
  | c1 :: c2 :: c3 :: c4 :: r =>
      if (c1 =? 80) && (c2 =? 73) && (c3 =? 68) && (c4 =? 58) then
        let n := digits_len r in
        if Nat.eqb n 0 then None
        else
          let after := skipn n r in
          Some (match after with
                | d :: a => if d =? 10 then a else after
                | [] => after
                end)
      else None
  | _ => None
  end.

(** The leftmost match, as [String.prototype.match] and [replace] (without
    [g]) take it: the text before it and the text after it. *)
Fixpoint find_pid_marker (s : jsstr) : option (jsstr * jsstr) :=
  match s with
  | [] => None
  | c :: r =>
      match marker_at (c :: r) with
      | Some a => Some ([], a)
      | None => option_map (fun ba => (c :: fst ba, snd ba)) (find_pid_marker r)
      end
  end.

Module DockerExecutor.
Section Docker.
Context {T : Type} `{TerminalEmu T}.

(** [execStreams] holds the pids whose exec stream is recorded;
    [destroyed] the pids whose stream [kill] destroyed. *)
Record DockerState := mkDockerState {
  registry : list (Process T);
  pidCounter : nat;
  execStreams : list string;
  destroyed : list string;
  initialized : bool
}.

Definition with_registry (r : list (Process T)) (st : DockerState) : DockerState :=
  mkDockerState r st.(pidCounter) st.(execStreams) st.(destroyed) st.(initialized).

(** [stream.on("data", ...)] in TTY mode, and the demultiplexed
    [stdout.on("data", ...)] otherwise (no terminal then). *)
Definition on_stream_data (text : jsstr) (p : Process T) : Process T :=
  write_terminal text (set_stdout (p.(stdout) ++ text) p).

(** The demultiplexed [stderr.on("data", ...)]: [appended] is the chunk,
    without its [PID:<n>] marker line for the chunk that carries it. *)
Definition on_stderr_text (appended : jsstr) (p : Process T) : Process T :=
  set_stderr (p.(stderr) ++ appended) p.

(** [stream.on("end", ...)]: [inspect] is [Some code] when
    [exec.inspect()] resolves with [ExitCode = code] ([None] for a
    [null] code), and [None] when it rejects. *)
Definition on_end (inspect : option (option Z)) (p : Process T) : Process T :=
  let p := match inspect with
           | Some code => set_exitCode code (set_status Terminated p)
           | None => set_exitCode (Some 1) (set_status Terminated p)
           end in
  end_streams p.

(** [stream.on("error", ...)] *)
Definition on_stream_error (message : jsstr) (p : Process T) : Process T :=
  end_streams
    (set_stderr (p.(stderr) ++ newline :: js "Stream error: " ++ message)
       (set_exitCode (Some 1) (set_status Terminated p))).

(** The marking done by [kill] after destroying the stream. *)
Definition mark_killed (p : Process T) : Process T :=
  set_exitCode (Some 143) (set_status Terminated p).

(** [kill(pid, signal = "SIGTERM")]: the signal is not used. *)
Definition kill (st : DockerState) (k : string) (signal : string) : Result unit * DockerState :=
  match ProcessRegistry.get k st.(registry) with
  | None => (err process_not_found, st)
  | Some p =>
      if negb (status_eqb p.(status) Running) then (err process_terminated, st)
      else if negb (existsb (String.eqb k) st.(execStreams)) then (err stream_not_found, st)
      else
        (ok tt,
         mkDockerState (update_entity k mark_killed st.(registry)) st.(pidCounter)
           st.(execStreams) (st.(destroyed) ++ [k]) st.(initialized))
  end.

(** [stdin(pid, input)], the same code as the host executor's. *)
Definition stdin (st : DockerState) (k : string) (input : jsstr) : Result unit * DockerState :=
  match ProcessRegistry.get k st.(registry) with
  | None => (err process_not_found, st)
  | Some p =>
      if negb p.(tty) then (err not_tty, st)
      else if negb (status_eqb p.(status) Running) then (err process_terminated, st)
      else
        let parsedInput := parseEscapeSequences input in
        (ok tt, with_registry (update_entity k (write_stdin parsedInput) st.(registry)) st)
  end.

(** [stdout(pid, lines = 100)], the same code as the host executor's. *)
Definition stdout (st : DockerState) (k : string) (lines : option Z)
    : Completion (Result (jsstr * jsstr)) :=
  let lines := match lines with Some n => n | None => 100 end in
  match ProcessRegistry.get k st.(registry) with
  | None => normal (err process_not_found)
  | Some p =>
      match (if p.(tty) && match p.(terminal) with Some _ => true | None => false end
             then getTerminalBuffer p else Some p.(stdout)) with
      | None => thrown
      | Some out =>
          let stdoutLines := split_nl out in
          let stderrLines := split_nl p.(stderr) in
          normal (ok (join_nl (js_slice_from (- lines) stdoutLines),
                      join_nl (js_slice_from (- lines) stderrLines)))
      end
  end.

(** The demultiplexed [stderr.on("data", ...)] of a non-TTY exec with the
    [pidExtracted] flag it closes over: while no marker has been seen, a
    chunk matching [/PID:(\d+)/] sets the flag and only its text without
    the first [/PID:\d+\n?/] is appended, if non-empty; every other chunk is
    appended as it is. *)
Definition on_stderr_chunk (pidExtracted : bool) (text : jsstr) (p : Process T)
    : bool * Process T :=
  if negb pidExtracted then
    match find_pid_marker text with
    | Some (before, after) =>
        let cleanedText := before ++ after in
        (true, match cleanedText with
               | [] => p
               | _ => on_stderr_text cleanedText p
               end)
    | None => (false, on_stderr_text text p)
    end
  else (true, on_stderr_text text p).

(** [ps()], the same code as the host executor's. *)
Definition ps (toISOString : Z -> string) (st : DockerState) : list (option ProcessInfo) :=
  map (fun p => ProcessRegistry.info toISOString p.(pid) st.(registry))
    (ProcessRegistry.list_entries st.(registry)).

(** [cleanup()]: every recorded exec stream is destroyed, both maps are
    cleared and [initialized] is reset; [pidCounter] is kept.  Stopping and
    removing the container act on the daemon, outside this state. *)
Definition cleanup (st : DockerState) : DockerState :=
  mkDockerState [] st.(pidCounter) [] (st.(destroyed) ++ st.(execStreams)) false.

End Docker.
End DockerExecutor.

(** ** Configuration (config.ts, in src/src/types/process.ts) *)

Module Config.

(** The code units [String.prototype.trim] removes: the WhiteSpace (TAB,
    VT, FF, ZWNBSP and the Zs space separators) and LineTerminator (LF, CR,
    LS, PS) code points. *)
Definition is_js_space (c : Z) : bool :=
  existsb (Z.eqb c)
    [9; 10; 11; 12; 13; 32; 160; 5760; 8192; 8193; 8194; 8195; 8196; 8197; 8198;
     8199; 8200; 8201; 8202; 8232; 8233; 8239; 8287; 12288; 65279].

Fixpoint trim_start (s : jsstr) : jsstr :=
  match s with
  | c :: r => if is_js_space c then trim_start r else s
  | [] => []
  end.

(** [s.trim()] *)
Definition trim (s : jsstr) : jsstr := rev (trim_start (rev (trim_start s))).

(** [s.split(sep)] for a one-code-unit separator *)
Fixpoint split_on (sep : Z) (s : jsstr) : list jsstr :=
  match s with
  | [] => [[]]
  | c :: r =>
      let parts := split_on sep r in
      if c =? sep then [] :: parts
      else match parts with
           | p :: ps => (c :: p) :: ps
           | [] => [[c]]
           end
  end.

Definition comma : Z := 44.

(** [parseAllowedDomains(env?)]: [!env] holds for [undefined] and [""]. *)
Definition parseAllowedDomains (env : option jsstr) : list jsstr :=
  match env with
  | None | Some [] => [js "*"]
  | Some s => filter (fun h => Nat.ltb 0 (length h)) (map trim (split_on comma s))
  end.

(** [parsePaths(env?)] *)
Definition parsePaths (env : option jsstr) : list jsstr :=
  match env with
  | None | Some [] => []
  | Some s => filter (fun p => Nat.ltb 0 (length p)) (map trim (split_on comma s))
  end.

(** The [network] and [filesystem] parts of a [SandboxRuntimeConfig] *)
Record SandboxConfig := mkSandboxConfig {
  allowedDomains : list jsstr;
  deniedDomains : list jsstr;
  allowWrite : list jsstr;
  denyRead : list jsstr;
  denyWrite : list jsstr
}.

Record DockerConfig := mkDockerConfig {
  image : jsstr;
  volumeName : jsstr;
  containerName : jsstr;
  useExisting : bool
}.

Record ConfigDefaults := mkConfigDefaults {
  workdir : jsstr;
  timeoutMs : Z;
  maxTimeoutMs : Z
}.

Record ProcessMcpConfig := mkProcessMcpConfig {
  mode : jsstr;
  sandbox : option SandboxConfig;
  docker : option DockerConfig;
  defaults : ConfigDefaults
}.

(** [===] on strings *)
Definition jsstr_eqb (a b : jsstr) : bool :=
  if list_eq_dec Z.eq_dec a b then true else false.

(** [process.env.X || d]: [undefined] and [""] give [d]. *)
Definition or_else (v : option jsstr) (d : jsstr) : jsstr :=
  match v with
  | None | Some [] => d
  | Some s => s
  end.

(** [loadConfig()]: [getenv] reads [process.env] and [cwd] is
    [process.cwd()]; the cast [as ExecutionMode] checks nothing. *)
Definition loadConfig (getenv : string -> option jsstr) (cwd : jsstr) : ProcessMcpConfig :=
  let mode := or_else (getenv "PROCESS_MODE"%string) (js "host") in
  let defaultSandboxConfig :=
    mkSandboxConfig (parseAllowedDomains (getenv "SANDBOX_ALLOWED_DOMAINS"%string)) []
      ([js "/tmp"; js "/home/agent"; cwd] ++ parsePaths (getenv "SANDBOX_ALLOW_WRITE"%string))
      (parsePaths (getenv "SANDBOX_DENY_READ"%string))
      (parsePaths (getenv "SANDBOX_DENY_WRITE"%string)) in
  let defaultDockerConfig :=
    mkDockerConfig (or_else (getenv "DOCKER_IMAGE"%string) (js "ubuntu:22.04"))
      (or_else (getenv "DOCKER_VOLUME"%string) (js "process-mcp-volume"))
      (or_else (getenv "DOCKER_CONTAINER"%string) (js "process-mcp-main"))
      (match getenv "DOCKER_USE_EXISTING"%string with
       | Some v => jsstr_eqb v (js "true")
       | None => false
       end) in
  mkProcessMcpConfig mode
    (if jsstr_eqb mode (js "host") then Some defaultSandboxConfig else None)
    (if jsstr_eqb mode (js "docker") then Some defaultDockerConfig else None)
    (mkConfigDefaults (or_else (getenv "DEFAULT_WORKDIR"%string) (js "/home/agent"))
       DEFAULT_TIMEOUT_MS MAX_TIMEOUT_MS).

Inductive ExecutorKind := host_executor | docker_executor.

(** The executor [createProcessMCP] (server.ts) builds:
    [config.mode === "docker"] picks the container one, anything else the
    host one. *)
Definition executor_kind (config : ProcessMcpConfig) : ExecutorKind :=
  if jsstr_eqb config.(mode) (js "docker") then docker_executor else host_executor.

End Config.

(** ** Tool dispatch (server.ts and tools/definitions.ts, src/unnamed/part_001) *)

Module Tools.

(** The function-valued properties of a [HostExecutor] or [DockerExecutor]
    instance: the methods of its class. *)
Definition executor_methods : list string :=
  ["constructor"; "initialize"; "spawn"; "stdin"; "ps"; "stdout"; "kill"; "cleanup"]%string.

(** The executor method called by the handler the server's [switch] runs
    for each tool name. *)
Definition handler_method (name : string) : option string :=
  if String.eqb name "spawn" then Some "spawn"%string
  else if String.eqb name "ps" then Some "listProcesses"%string
  else if String.eqb name "stdin" then Some "stdin"%string
  else if String.eqb name "stdout" then Some "getOutput"%string
  else if String.eqb name "kill" then Some "kill"%string
  else None.

Inductive Outcome :=
  | executor_called (method : string)
  | error_result (code : string) (message : string).

(** The [CallToolRequestSchema] handler on arguments its schema accepts:
    calling a property that is not a function throws a [TypeError], which
    the [catch] reports through [errorToCallToolResult("tool_error", ...)]. *)
Definition callTool (name : string) : Outcome :=
  match handler_method name with
  | None => error_result "unknown_tool" (String.append "Unknown tool: " name)
  | Some m =>
      if existsb (String.eqb m) executor_methods then executor_called m
      else error_result "tool_error"
             (String.append "Tool execution failed: executor."
                (String.append m " is not a function"))
  end.

End Tools.

(** ** Entities reachable through the executors

    Every entity starts as [new_process] and changes only through the
    callbacks and operations above. *)
Inductive reachable {T} `{TerminalEmu T} : Process T -> Prop :=
  | reach_new k command cwd env tty now :
      reachable (new_process k command cwd env tty now)
  | reach_stdout_data d p : reachable p -> reachable (on_stdout_data d p)
  | reach_stderr_data d p : reachable p -> reachable (on_stderr_data d p)
  | reach_exit c p : reachable p -> reachable (on_exit c p)
  | reach_error m p : reachable p -> reachable (on_error m p)
  | reach_spawn_failure p : reachable p -> reachable (on_spawn_failure p)
  | reach_stdin d p : reachable p -> reachable (write_stdin d p)
  | reach_promise p : reachable p -> reachable (set_promise true p)
  | reach_stream_data d p : reachable p -> reachable (DockerExecutor.on_stream_data d p)
  | reach_stderr_text d p : reachable p -> reachable (DockerExecutor.on_stderr_text d p)
  | reach_end i p : reachable p -> reachable (DockerExecutor.on_end i p)
  | reach_stream_error m p : reachable p -> reachable (DockerExecutor.on_stream_error m p)
  | reach_killed p : reachable p -> reachable (DockerExecutor.mark_killed p).

(** ** What the spec's wording refers to *)

(** The conventional shell exit status of a process ended by a signal:
    128 plus the signal number. *)
Definition signal_number (signal : string) : option Z :=
  if String.eqb signal "SIGHUP" then Some 1
  else if String.eqb signal "SIGINT" then Some 2
  else if String.eqb signal "SIGQUIT" then Some 3
  else if String.eqb signal "SIGKILL" then Some 9
  else if String.eqb signal "SIGTERM" then Some 15
  else None.

Definition conventional_exit_code (signal : string) : option Z :=
  option_map (fun n => 128 + n) (signal_number signal).

(** Escape decoding as one left-to-right pass trying, at each position,
    [\n], [\r], [\t], [\xHH], [\uHHHH] in this order. *)
Fixpoint decode_single_pass (s : jsstr) : jsstr :=
  match s with
  | [] => []
  | a :: t =>
      let rest_default := a :: decode_single_pass t in
      if negb (a =? backslash) then rest_default else
      match t with
      | b :: r =>
          if b =? 110 then 10 :: decode_single_pass r
          else if b =? 114 then 13 :: decode_single_pass r
          else if b =? 116 then 9 :: decode_single_pass r
          else match r with
               | h1 :: h2 :: r2 =>
                   if (b =? 120) && is_hex h1 && is_hex h2
                   then (16 * hex_val h1 + hex_val h2) :: decode_single_pass r2
                   else match r2 with
                        | h3 :: h4 :: r4 =>
                            if (b =? 117) && is_hex h1 && is_hex h2 && is_hex h3 && is_hex h4
                            then (4096 * hex_val h1 + 256 * hex_val h2 + 16 * hex_val h3
                                  + hex_val h4) :: decode_single_pass r4
                            else rest_default
                        | _ => rest_default
                        end
               | _ => rest_default
               end
      | [] => rest_default
      end
  end.

(** The last [n] characters of [s]. *)
Definition lastn (n : Z) (s : jsstr) : jsstr := skipn (Z.to_nat (js_length s - n)) s.

(** [out] is [src] cut to the budget: unchanged up to the budget, else its
    trailing [OUTPUT_TRUNCATE] characters followed by the marker. *)
Definition truncated_text (src out : jsstr) : Prop :=
  (js_length src <= OUTPUT_TRUNCATE -> out = src) /\
  (OUTPUT_TRUNCATE < js_length src ->
     out = lastn OUTPUT_TRUNCATE src ++ truncation_marker /\
     js_length out = OUTPUT_TRUNCATE + js_length truncation_marker).



(** The text a run of callbacks wrote to the child's stdout. *)
Definition stdout_text (evs : list (Z * ChildEvent)) : jsstr :=
  flat_map (fun te => match snd te with ev_stdout d => d | _ => [] end) evs.

(** A terminal that renders text without control sequences, for the
    concrete runs below. *)
#[export] Instance plain_terminal : TerminalEmu jsstr := {
  term_new := [];
  term_write t text := t ++ text;
  term_lines t := split_nl t
}.

(** Concrete inputs for the runs below. *)
Definition sample_process (k : string) (tty : bool) (st : Status) (t : Z)
    (out : jsstr) : Process jsstr :=
  mkProcess k "cmd" "/home/agent" [] tty st t (if status_eqb st Running then None else Some 0)
    [] false out [] (if tty then Some out else None) false.

Definition sample_defaults : Defaults := mkDefaults "/home/agent" DEFAULT_TIMEOUT_MS.

Definition sample_host_state (r : list (Process jsstr)) : HostExecutor.HostState (T:=jsstr) :=
  HostExecutor.mkHostState r 1 [] false.

Definition sample_docker_state (r : list (Process jsstr)) (streams : list string)
    : DockerExecutor.DockerState (T:=jsstr) :=
  DockerExecutor.mkDockerState r 1 streams [] true.

(** ** Auxiliary notions used by the further properties *)

(** The number of running entities. *)
Definition count_running {T} (r : list (Process T)) : nat :=
  length (filter (fun p => status_eqb p.(status) Running) r).

(** One call of the container stderr handler, threading [pidExtracted]. *)
Definition stderr_step {T} (bp : bool * Process T) (c : jsstr) : bool * Process T :=
  DockerExecutor.on_stderr_chunk (fst bp) c (snd bp).

(** * Properties *)

(** ** The registry *)

Module RegistryFacts.
Import ProcessRegistry.
Section Facts.
Context {T : Type}.

Lemma insert_desc_perm (x : Process T) l : Permutation (insert_desc x l) (x :: l).
Proof.
  induction l as [|y l IH]; simpl; [reflexivity|].
  destruct (createdAt y <=? createdAt x); [reflexivity|].
  rewrite IH. apply perm_swap.
Qed.

Lemma sort_desc_perm (l : list (Process T)) : Permutation (sort_desc l) l.
Proof.
  induction l as [|x l IH]; simpl; [reflexivity|].
  rewrite insert_desc_perm. now apply perm_skip.
Qed.

Definition newer (a b : Process T) : Prop := createdAt b <= createdAt a.

Lemma insert_desc_sorted (x : Process T) l :
  Sorted newer l -> Sorted newer (insert_desc x l).
Proof.
  induction 1 as [|y l Hs IH Hhd]; simpl.
  - constructor; constructor.
  - destruct (createdAt y <=? createdAt x) eqn:E.
    + constructor; [constructor; auto|constructor; unfold newer; lia].
    + constructor; [exact IH|].
      destruct l as [|z l]; simpl.
      * constructor; unfold newer; lia.
      * destruct (createdAt z <=? createdAt x); constructor; unfold newer.
        -- lia.
        -- inversion Hhd; auto.
Qed.

Lemma sort_desc_sorted (l : list (Process T)) : StronglySorted newer (sort_desc l).
Proof.
  apply Sorted_StronglySorted.
  - intros a b c; unfold newer; lia.
  - induction l; simpl; [constructor|]. now apply insert_desc_sorted.
Qed.

Lemma in_skipn_in n (l : list (Process T)) x : In x (skipn n l) -> In x l.
Proof. intros H. rewrite <- (firstn_skipn n l). apply in_or_app; now right. Qed.

Lemma in_firstn_in n (l : list (Process T)) x : In x (firstn n l) -> In x l.
Proof. intros H. rewrite <- (firstn_skipn n l). apply in_or_app; now left. Qed.

Lemma strongly_sorted_split n (l : list (Process T)) x y :
  StronglySorted newer l -> In x (firstn n l) -> In y (skipn n l) -> newer x y.
Proof.
  revert l; induction n as [|n IH]; intros l Hs Hx Hy; [destruct Hx|].
  destruct l as [|a l]; [destruct Hx|].
  simpl in Hx, Hy. inversion Hs as [|? ? Hs' Hall]; subst.
  destruct Hx as [<-|Hx].
  - rewrite Forall_forall in Hall. apply Hall. exact (in_skipn_in _ _ _ Hy).
  - exact (IH l Hs' Hx Hy).
Qed.

(** Deleting the pids of [rem] one after the other is a filter. *)
Definition not_removed (rem : list (Process T)) (e : Process T) : bool :=
  negb (existsb (fun q => String.eqb e.(pid) q.(pid)) rem).

Lemma filter_filter_and (f g : Process T -> bool) l :
  filter f (filter g l) = filter (fun x => g x && f x) l.
Proof.
  induction l as [|x l IH]; simpl; [reflexivity|].
  destruct (g x); simpl; [destruct (f x); simpl; now rewrite ?IH|exact IH].
Qed.

Lemma fold_delete_filter (rem : list (Process T)) (r : list (Process T)) :
  fold_left (fun acc p => delete p.(pid) acc) rem r = filter (not_removed rem) r.
Proof.
  revert r; induction rem as [|q rem IH]; intros r; simpl.
  - unfold not_removed; simpl. induction r; simpl; [reflexivity|]. now f_equal.
  - rewrite IH. unfold delete. rewrite filter_filter_and.
    apply filter_ext. intros e. unfold not_removed; simpl.
    now destruct (String.eqb (pid e) (pid q)).
Qed.

Lemma not_removed_spec rem (e : Process T) :
  not_removed rem e = false <-> exists q, In q rem /\ pid q = pid e.
Proof.
  unfold not_removed. rewrite negb_false_iff, existsb_exists.
  split; intros [q [Hq E]]; exists q; split; auto.
  - apply String.eqb_eq in E; auto.
  - apply String.eqb_eq; auto.
Qed.

Lemma nodup_pid_unique (l : list (Process T)) a b :
  NoDup (map pid l) -> In a l -> In b l -> pid a = pid b -> a = b.
Proof.
  induction l as [|x l IH]; intros Hnd Ha Hb E; [destruct Ha|].
  simpl in Hnd. apply NoDup_cons_iff in Hnd as [Hx Hnd].
  destruct Ha as [<-|Ha], Hb as [<-|Hb]; auto.
  - exfalso. apply Hx. rewrite E. now apply in_map.
  - exfalso. apply Hx. rewrite <- E. now apply in_map.
Qed.

Lemma nodup_pid_filter f (l : list (Process T)) :
  NoDup (map pid l) -> NoDup (map pid (filter f l)).
Proof.
  induction l as [|x l IH]; simpl; intros Hnd; [constructor|].
  apply NoDup_cons_iff in Hnd as [Hx Hnd].
  destruct (f x); simpl; auto.
  constructor; auto. intros Hin. apply Hx.
  apply in_map_iff in Hin as [y [Ey Hy]]. apply filter_In in Hy as [Hy _].
  rewrite <- Ey. now apply in_map.
Qed.

Lemma map_set_nodup (v : Process T) r :
  NoDup (map pid r) -> NoDup (map pid (map_set v r)).
Proof.
  intros Hnd. unfold map_set.
  destruct (existsb (fun p => String.eqb (pid p) (pid v)) r) eqn:E.
  - rewrite map_map.
    replace (map (fun x => pid (if String.eqb (pid x) (pid v) then v else x)) r)
      with (map pid r); auto.
    apply map_ext. intros x. destruct (String.eqb (pid x) (pid v)) eqn:Ex; auto.
    apply String.eqb_eq in Ex; auto.
  - rewrite map_app. simpl. apply NoDup_app; auto.
    + repeat constructor. intros [].
    + intros x Hx Hx'. simpl in Hx'. destruct Hx' as [<-|[]].
      apply in_map_iff in Hx as [y [Ey Hy]].
      assert (existsb (fun p => String.eqb (pid p) (pid v)) r = true) as C.
      { apply existsb_exists. exists y. split; auto. now apply String.eqb_eq. }
      congruence.
Qed.

(** The three facts on one pruning. *)
Lemma prune_facts (r : list (Process T)) :
  NoDup (map pid r) ->
  let ts := terminated_sorted r in
  (forall e, In e (pruneTerminated r) <->
             In e r /\ not_removed (skipn maxTerminatedProcesses ts) e = true) /\
  (forall e, In e ts <-> In e r /\ is_terminated e = true) /\
  NoDup ts.
Proof.
  intros Hnd ts.
  assert (Hperm : Permutation ts (filter is_terminated r)) by apply sort_desc_perm.
  split; [|split].
  - intros e. unfold pruneTerminated. now rewrite fold_delete_filter, filter_In.
  - intros e. rewrite <- filter_In. split; intros Hin.
    + exact (Permutation_in _ Hperm Hin).
    + exact (Permutation_in _ (Permutation_sym Hperm) Hin).
  - apply (Permutation_NoDup (Permutation_sym Hperm)). apply NoDup_filter.
    exact (NoDup_map_inv _ _ Hnd).
Qed.

Lemma prune_filter (r : list (Process T)) :
  pruneTerminated r
  = filter (not_removed (skipn maxTerminatedProcesses (terminated_sorted r))) r.
Proof. apply fold_delete_filter. Qed.

Lemma nodup_app_disjoint {A} (l1 l2 : list A) x :
  NoDup (l1 ++ l2) -> In x l1 -> In x l2 -> False.
Proof.
  induction l1 as [|a l1 IH]; simpl; intros Hnd H1 H2; [exact H1|].
  apply NoDup_cons_iff in Hnd as [Ha Hnd].
  destruct H1 as [<-|H1]; [apply Ha, in_or_app; now right|exact (IH Hnd H1 H2)].
Qed.

Lemma is_terminated_iff (e : Process T) : is_terminated e = true <-> status e = Terminated.
Proof. unfold is_terminated. destruct (status e); simpl; split; congruence. Qed.

Lemma prune_nodup (r : list (Process T)) :
  NoDup (map pid r) -> NoDup (map pid (pruneTerminated r)).
Proof. intros Hnd. rewrite prune_filter. now apply nodup_pid_filter. Qed.

Lemma prune_keeps_running (r : list (Process T)) e :
  NoDup (map pid r) -> In e r -> status e = Running -> In e (pruneTerminated r).
Proof.
  intros Hnd He Hrun. rewrite prune_filter, filter_In. split; auto.
  destruct (not_removed _ e) eqn:E; auto.
  apply not_removed_spec in E as [q [Hq Eq]].
  apply in_skipn_in in Hq. unfold terminated_sorted in Hq.
  apply (Permutation_in _ (sort_desc_perm _)), filter_In in Hq as [Hq Ht].
  rewrite (nodup_pid_unique r q e Hnd Hq He Eq) in Ht.
  apply is_terminated_iff in Ht. congruence.
Qed.

Lemma map_set_in (v : Process T) r : In v (map_set v r).
Proof.
  unfold map_set. destruct (existsb _ r) eqn:E.
  - apply existsb_exists in E as [x [Hx Ex]]. apply in_map_iff. exists x.
    now rewrite Ex.
  - apply in_or_app. right. now left.
Qed.

Lemma add_nodup (v : Process T) r : NoDup (map pid r) -> NoDup (map pid (add v r)).
Proof. intros Hnd. apply prune_nodup, map_set_nodup, Hnd. Qed.

Lemma add_keeps_new (v : Process T) r :
  NoDup (map pid r) -> status v = Running -> In v (add v r).
Proof.
  intros Hnd Hrun. apply prune_keeps_running; auto.
  - now apply map_set_nodup.
  - apply map_set_in.
Qed.

Lemma get_in_nodup (l : list (Process T)) p :
  NoDup (map pid l) -> In p l -> get (pid p) l = Some p.
Proof.
  induction l as [|x l IH]; intros Hnd Hp; [destruct Hp|].
  simpl in Hnd. apply NoDup_cons_iff in Hnd as [Hx Hnd]. unfold get; simpl.
  destruct Hp as [<-|Hp].
  - now rewrite String.eqb_refl.
  - destruct (String.eqb (pid x) (pid p)) eqn:E.
    + apply String.eqb_eq in E. exfalso. apply Hx. rewrite E. now apply in_map.
    + now apply IH.
Qed.

Lemma get_update k (f : Process T -> Process T) l :
  (forall p, pid (f p) = pid p) ->
  get k (update_entity k f l) = option_map f (get k l).
Proof.
  intros Hf. induction l as [|x l IH]; [reflexivity|].
  unfold get, update_entity in *; simpl.
  destruct (String.eqb (pid x) k) eqn:E.
  - now rewrite Hf, E.
  - rewrite E. exact IH.
Qed.


End Facts.
End RegistryFacts.


(** [C1] After [add] (the only operation that prunes), the registry holds
    [min 5 n] of the [n] terminated entities it held after the [set], so at
    most 5; it only lost entities; every running entity is kept; every
    terminated entity evicted is no newer than every terminated entity kept;
    and the registry still holds one entity per pid, so the same holds after
    every insertion of any sequence. *)
Theorem registry_add_prunes_terminated {T} (p : Process T) (r : list (Process T)) :
  NoDup (map pid r) ->
  let r1 := ProcessRegistry.map_set p r in
  let r' := ProcessRegistry.add p r in
  length (filter ProcessRegistry.is_terminated r')
    = Nat.min 5 (length (filter ProcessRegistry.is_terminated r1)) /\
  (forall e, In e r' -> In e r1) /\
  (forall e, In e r1 -> status e = Running -> In e r') /\
  (forall e e', In e r1 -> status e = Terminated -> ~ In e r' ->
                In e' r' -> status e' = Terminated -> createdAt e <= createdAt e') /\
  NoDup (map pid r').
Proof.
  intros Hnd0 r1 r'.
  pose proof (RegistryFacts.map_set_nodup p r Hnd0) as Hnd. fold r1 in Hnd.
  destruct (RegistryFacts.prune_facts r1 Hnd) as [Hin [Hts Hndts]].
  assert (Hnd' : NoDup (map pid r')) by now apply RegistryFacts.add_nodup.
  assert (Hsorted : StronglySorted RegistryFacts.newer (ProcessRegistry.terminated_sorted r1))
    by apply RegistryFacts.sort_desc_sorted.
  assert (Hlen : length (ProcessRegistry.terminated_sorted r1)
                 = length (filter ProcessRegistry.is_terminated r1))
    by apply Permutation_length, RegistryFacts.sort_desc_perm.
  set (ts := ProcessRegistry.terminated_sorted r1) in *.
  assert (Hr' : forall e, In e r' <-> In e r1 /\ RegistryFacts.not_removed (skipn 5 ts) e = true)
    by exact Hin.
  clearbody ts.
  assert (Hsplit : ts = firstn 5 ts ++ skipn 5 ts) by now rewrite firstn_skipn.
  assert (Hdisj : forall x, In x (firstn 5 ts) -> In x (skipn 5 ts) -> False).
  { intros x. apply RegistryFacts.nodup_app_disjoint. now rewrite <- Hsplit. }
  (* an entity of [r1] that shares its pid with an evicted one is that one *)
  assert (Hrem : forall e, In e r1 -> RegistryFacts.not_removed (skipn 5 ts) e = false ->
                           In e (skipn 5 ts)).
  { intros e He Hnr. apply RegistryFacts.not_removed_spec in Hnr as [q [Hq Eq]].
    assert (Hq1 : In q r1) by (apply Hts; exact (RegistryFacts.in_skipn_in _ _ _ Hq)).
    now rewrite <- (RegistryFacts.nodup_pid_unique r1 q e Hnd Hq1 He Eq). }
  assert (Hkept : forall e, In e r' -> status e = Terminated -> In e (firstn 5 ts)).
  { intros e He Ht. apply Hr' in He as [He Hnr].
    assert (Hts' : In e ts) by (apply Hts; split; auto; now apply RegistryFacts.is_terminated_iff).
    rewrite Hsplit in Hts'. apply in_app_or in Hts' as [H1|H2]; auto.
    assert (RegistryFacts.not_removed (skipn 5 ts) e = false) as C.
    { apply RegistryFacts.not_removed_spec. now exists e. }
    congruence. }
  split; [|split; [|split; [|split]]].
  - assert (Hperm : Permutation (filter ProcessRegistry.is_terminated r') (firstn 5 ts)).
    { apply NoDup_Permutation.
      + apply NoDup_filter. exact (NoDup_map_inv _ _ Hnd').
      + apply (NoDup_app_remove_r _ (skipn 5 ts)). now rewrite <- Hsplit.
      + intros x. rewrite filter_In, RegistryFacts.is_terminated_iff. split.
        * intros [Hx Ht]. now apply Hkept.
        * intros Hx. assert (Hx' : In x ts) by (rewrite Hsplit; apply in_or_app; now left).
          apply Hts in Hx' as [Hx1 Hxt]. apply RegistryFacts.is_terminated_iff in Hxt.
          split; auto. apply Hr'. split; auto.
          destruct (RegistryFacts.not_removed (skipn 5 ts) x) eqn:E; auto.
          exfalso. exact (Hdisj x Hx (Hrem x Hx1 E)). }
    rewrite (Permutation_length Hperm), length_firstn, Hlen. reflexivity.
  - intros e He. apply Hr' in He. tauto.
  - intros e He Hrun. now apply RegistryFacts.prune_keeps_running.
  - intros e e' He Ht Hout He' Ht'.
    assert (E : RegistryFacts.not_removed (skipn 5 ts) e = false).
    { destruct (RegistryFacts.not_removed (skipn 5 ts) e) eqn:E; auto.
      exfalso. apply Hout, Hr'. auto. }
    apply Hrem in E; auto.
    exact (RegistryFacts.strongly_sorted_split 5 ts e' e Hsorted (Hkept e' He' Ht') E).
  - exact Hnd'.
Qed.

(** ** Output truncation *)

Lemma truncateOutput_truncated (s : jsstr) : truncated_text s (truncateOutput s).
Proof.
  unfold truncated_text, truncateOutput, js_length, lastn, OUTPUT_TRUNCATE.
  split; intros Hlen.
  - destruct (Z.of_nat (length s) <=? 8196) eqn:E; auto. lia.
  - destruct (Z.of_nat (length s) <=? 8196) eqn:E; [lia|].
    unfold js_slice_from, js_length.
    replace (if - (8196) <? 0 then Z.max (Z.of_nat (length s) + - (8196)) 0
             else Z.min (- (8196)) (Z.of_nat (length s)))
      with (Z.of_nat (length s) - 8196) by (simpl; lia).
    split.
    + reflexivity.
    + rewrite length_app, length_skipn. simpl. lia.
Qed.

(** [C10] [truncateOutput] returns an input of at most 8196 characters
    unchanged; a longer input becomes its final 8196 characters followed by
    the 16-character marker ["\n... (truncated)"], 8212 characters in all,
    more than the 8196-character budget. *)
Theorem truncateOutput_exact (s : jsstr) :
  (js_length s <= 8196 -> truncateOutput s = s) /\
  (8196 < js_length s ->
     truncateOutput s = lastn 8196 s ++ [newline] ++ js "... (truncated)" /\
     js_length (lastn 8196 s) = 8196 /\
     js_length ([newline] ++ js "... (truncated)") = 16 /\
     js_length (truncateOutput s) = 8212 /\
     8196 < js_length (truncateOutput s)).
Proof.
  destruct (truncateOutput_truncated s) as [Hshort Hlong].
  split; [exact Hshort|intros Hlen].
  destruct (Hlong Hlen) as [E L]. rewrite L.
  unfold lastn, js_length in *. rewrite length_skipn.
  split; [exact E|]. simpl. repeat split; lia.
Qed.

(** ** The host executor's wait *)

Module HostFacts.
Section Facts.
Context {T : Type} `{TerminalEmu T}.





(** The data callbacks leave a running entity running, with its streams open,
    and append to its stdout what the child wrote there. *)
Lemma run_data_events k pre (s : HostExecutor.HostState (T:=T)) p :
  Forall (fun te => is_completion (snd te) = false) pre ->
  ProcessRegistry.get k s.(HostExecutor.registry) = Some p ->
  exists p',
    ProcessRegistry.get k (HostExecutor.run_events k pre s).(HostExecutor.registry) = Some p' /\
    status p' = status p /\ exitCode p' = exitCode p /\
    streams_ended p' = streams_ended p /\
    stdout p' = stdout p ++ stdout_text pre /\
    (HostExecutor.run_events k pre s).(HostExecutor.childProcesses) = s.(HostExecutor.childProcesses).
Proof.
  revert s p; induction pre as [|[t e] pre IH]; intros s p Hall Hget.
  - exists p. simpl. rewrite app_nil_r. repeat split; auto.
  - inversion Hall as [|? ? He Hall']; subst. simpl in He.
    change (HostExecutor.run_events k ((t, e) :: pre) s)
      with (HostExecutor.run_events k pre (HostExecutor.deliver k e s)).
    destruct e as [d|d|c|m]; try discriminate.
    + destruct (IH (HostExecutor.deliver k (ev_stdout d) s) (on_stdout_data d p) Hall')
        as [p' [G [S1 [S2 [S3 [S4 S5]]]]]].
      { simpl. rewrite RegistryFacts.get_update, Hget; auto; intros q; now destruct q. }
      exists p'. rewrite S4, S5. destruct p; simpl in *.
      rewrite <- app_assoc. repeat split; auto.
    + destruct (IH (HostExecutor.deliver k (ev_stderr d) s) (on_stderr_data d p) Hall')
        as [p' [G [S1 [S2 [S3 [S4 S5]]]]]].
      { simpl. rewrite RegistryFacts.get_update, Hget; auto; intros q; now destruct q. }
      exists p'. rewrite S4, S5. destruct p; simpl in *. repeat split; auto.
Qed.




End Facts.
End HostFacts.

(** Reading the buffer of a terminal throws: every terminal is built
    without [allowProposedApi]. *)
Lemma getTerminalBuffer_throws {T} `{TerminalEmu T} (p : Process T) :
  terminal p <> None -> getTerminalBuffer p = None.
Proof. unfold getTerminalBuffer. destruct (terminal p); [reflexivity|congruence]. Qed.




(** ** Escape decoding *)

Lemma replace_esc_plain c o (s : jsstr) : ~ In backslash s -> replace_esc c o s = s.
Proof.
  induction s as [|a t IH]; intros Hs; [reflexivity|]. simpl.
  assert (Ha : (a =? backslash) = false) by (apply Z.eqb_neq; intros E; apply Hs; now left).
  assert (Ht : replace_esc c o t = t) by (apply IH; intros Hin; apply Hs; now right).
  destruct t as [|b r]; [reflexivity|]. rewrite Ha, Ht. reflexivity.
Qed.

Lemma replace_hex2_plain (s : jsstr) : ~ In backslash s -> replace_hex2 s = s.
Proof.
  induction s as [|a t IH]; intros Hs; [reflexivity|]. simpl.
  assert (Ha : (a =? backslash) = false) by (apply Z.eqb_neq; intros E; apply Hs; now left).
  assert (Ht : replace_hex2 t = t) by (apply IH; intros Hin; apply Hs; now right).
  destruct t as [|b [|h1 [|h2 r]]]; simpl in *; try rewrite Ha; simpl; congruence.
Qed.

Lemma replace_hex4_plain (s : jsstr) : ~ In backslash s -> replace_hex4 s = s.
Proof.
  induction s as [|a t IH]; intros Hs; [reflexivity|]. simpl.
  assert (Ha : (a =? backslash) = false) by (apply Z.eqb_neq; intros E; apply Hs; now left).
  assert (Ht : replace_hex4 t = t) by (apply IH; intros Hin; apply Hs; now right).
  destruct t as [|b [|h1 [|h2 [|h3 [|h4 r]]]]]; simpl in *; try rewrite Ha; simpl; congruence.
Qed.

Lemma parse_plain (s : jsstr) : ~ In backslash s -> parseEscapeSequences s = s.
Proof.
  intros Hs. unfold parseEscapeSequences.
  rewrite (replace_esc_plain 110 10 s Hs), (replace_esc_plain 114 13 s Hs),
    (replace_esc_plain 116 9 s Hs), (replace_hex2_plain s Hs).
  exact (replace_hex4_plain s Hs).
Qed.

(** [C3], as stated, fails: decoding [\x5cn] gives [\n], which decodes
    again to a newline, so decoding is not idempotent on decoded text; and
    [\x5cu0041] decodes to [A], where one forward pass gives [\u0041];
    and the 7-character [a\\x41b] decodes to [a\Ab], not [aAb]. *)
Lemma parse_escape_not_idempotent :
  parseEscapeSequences (parseEscapeSequences (js "\x5cn"))
    <> parseEscapeSequences (js "\x5cn") /\
  parseEscapeSequences (js "\x5cu0041") <> decode_single_pass (js "\x5cu0041") /\
  parseEscapeSequences (js "a\\x41b") <> js "aAb".
Proof. repeat split; vm_compute; discriminate. Qed.

(** [C3] (amended) Decoding is five whole-string passes, [\n], [\r], [\t],
    [\xHH], [\uHHHH] in this order, each scanning the previous pass's
    output: text without a backslash is returned unchanged, so decoding is
    idempotent on every input whose result has no backslash left.  That
    condition is sufficient, not necessary: a lone backslash decodes to
    itself, so decoding is idempotent on it too.  [a\x41b] yields [aAb], and
    the [\u] pass rescans what the [\x] pass produced. *)
Theorem parse_escape_passes :
  (forall s, ~ In backslash s -> parseEscapeSequences s = s) /\
  (forall s, ~ In backslash (parseEscapeSequences s) ->
             parseEscapeSequences (parseEscapeSequences s) = parseEscapeSequences s) /\
  parseEscapeSequences (js "a\x41b") = js "aAb" /\
  parseEscapeSequences (js "a\\x41b") = js "a\Ab" /\
  parseEscapeSequences (js "\x5cn") = js "\n" /\
  parseEscapeSequences (js "\n") = [newline] /\
  parseEscapeSequences (js "\x5cu0041") = js "A" /\
  parseEscapeSequences [backslash] = [backslash].
Proof.
  split; [exact parse_plain|].
  split; [intros s Hs; exact (parse_plain _ Hs)|].
  repeat split; reflexivity.
Qed.

(** ** Exit codes *)

(** [C4], as stated, fails: a host child ended by a signal reports a
    [null] code, and the ["exit"] callback leaves the entity terminated
    with no exit code. *)
Lemma terminated_without_exitCode :
  ~ (forall p : Process jsstr,
       reachable p -> (status p = Terminated <-> exists c, exitCode p = Some c)).
Proof.
  intros Hall.
  pose proof (reach_exit None _ (reach_new "host-1" "sleep 60" "/home/agent" [] false 0))
    as Hr.
  destruct (Hall _ Hr) as [Hto _].
  destruct (Hto eq_refl) as [c Hc]. discriminate.
Qed.

(** [C4] (amended) An entity that is running has no exit code; the
    terminated entity of the lemma above shows the converse fails. *)
Theorem running_has_no_exitCode {T} `{TerminalEmu T} (p : Process T) :
  reachable p -> status p = Running -> exitCode p = None.
Proof.
  induction 1; intros Hrun;
    repeat match goal with q : Process T |- _ => destruct q end;
    simpl in *; try discriminate; auto.
  destruct i; discriminate.
Qed.

Lemma running_has_no_exitCode_witness :
  reachable (new_process (T:=jsstr) "host-1" "cat" "/home/agent" [] true 0) /\
  status (new_process (T:=jsstr) "host-1" "cat" "/home/agent" [] true 0) = Running /\
  exitCode (new_process (T:=jsstr) "host-1" "cat" "/home/agent" [] true 0) = None.
Proof.
  split; [apply reach_new|]. split; [reflexivity|].
  apply running_has_no_exitCode; [apply reach_new|reflexivity].
Defined.

(** ** [stdin] *)

Lemma write_stdin_pid {T} d (p : Process T) : pid (write_stdin d p) = pid p.
Proof. now destruct p. Qed.

(** [C7] For both executors, [stdin(id, text)] fails with
    [process_not_found] for an unknown id; with [not_tty] for an entity
    created without [tty], whatever its status; with [process_terminated]
    for a terminated TTY entity; and otherwise succeeds, appending the
    decoded text to the entity's input stream.  A failure changes nothing. *)
Theorem stdin_checks {T} `{TerminalEmu T} (k : string) (input : jsstr) :
  (forall st : HostExecutor.HostState (T:=T),
     (ProcessRegistry.get k st.(HostExecutor.registry) = None ->
        HostExecutor.stdin st k input = (err process_not_found, st)) /\
     (forall p, ProcessRegistry.get k st.(HostExecutor.registry) = Some p ->
        tty p = false -> HostExecutor.stdin st k input = (err not_tty, st)) /\
     (forall p, ProcessRegistry.get k st.(HostExecutor.registry) = Some p ->
        tty p = true -> status p = Terminated ->
        HostExecutor.stdin st k input = (err process_terminated, st)) /\
     (forall p, ProcessRegistry.get k st.(HostExecutor.registry) = Some p ->
        tty p = true -> status p = Running ->
        fst (HostExecutor.stdin st k input) = ok tt /\
        ProcessRegistry.get k (snd (HostExecutor.stdin st k input)).(HostExecutor.registry)
          = Some (set_stdinStream (stdinStream p ++ parseEscapeSequences input) p))) /\
  (forall st : DockerExecutor.DockerState (T:=T),
     (ProcessRegistry.get k st.(DockerExecutor.registry) = None ->
        DockerExecutor.stdin st k input = (err process_not_found, st)) /\
     (forall p, ProcessRegistry.get k st.(DockerExecutor.registry) = Some p ->
        tty p = false -> DockerExecutor.stdin st k input = (err not_tty, st)) /\
     (forall p, ProcessRegistry.get k st.(DockerExecutor.registry) = Some p ->
        tty p = true -> status p = Terminated ->
        DockerExecutor.stdin st k input = (err process_terminated, st)) /\
     (forall p, ProcessRegistry.get k st.(DockerExecutor.registry) = Some p ->
        tty p = true -> status p = Running ->
        fst (DockerExecutor.stdin st k input) = ok tt /\
        ProcessRegistry.get k (snd (DockerExecutor.stdin st k input)).(DockerExecutor.registry)
          = Some (set_stdinStream (stdinStream p ++ parseEscapeSequences input) p))).
Proof.
  split; intros st;
    unfold HostExecutor.stdin, DockerExecutor.stdin;
    (split; [intros G; now rewrite G|]);
    (split; [intros p G Ht; now rewrite G, Ht|]);
    (split; [intros p G Ht Hs; now rewrite G, Ht, Hs|]);
    intros p G Ht Hs; rewrite G, Ht, Hs; simpl; split; auto;
    rewrite RegistryFacts.get_update, G; auto; intros q; apply write_stdin_pid.
Qed.

(** ** [kill] in the container backend *)

Lemma mark_killed_pid {T} (p : Process T) : pid (DockerExecutor.mark_killed p) = pid p.
Proof. now destruct p. Qed.

(** [C8], as stated, fails: [kill] ignores its signal, so a process killed
    with [SIGKILL] is recorded with 143, not the conventional 137. *)
Lemma docker_kill_ignores_signal :
  match DockerExecutor.kill
          (sample_docker_state [sample_process "docker-1" false Running 0 []] ["docker-1"%string])
          "docker-1" "SIGKILL" with
  | (res, st') =>
      res = ok tt /\
      exists p, ProcessRegistry.get "docker-1" st'.(DockerExecutor.registry) = Some p /\
                status p = Terminated /\ exitCode p = Some 143 /\
                conventional_exit_code "SIGKILL" = Some 137 /\
                exitCode p <> conventional_exit_code "SIGKILL"
  end.
Proof.
  vm_compute. split; [reflexivity|].
  eexists. split; [reflexivity|]. repeat split; discriminate.
Qed.

(** [C8] (amended) In the container backend, [kill(id, signal)] fails with
    [process_not_found] for an unknown id, with [process_terminated] for a
    finished entity, and with [stream_not_found] for a running entity with
    no recorded exec stream; otherwise it destroys the local stream and
    marks the entity terminated with exit code 143 whatever [signal] is,
    and returns success at once. *)
Theorem docker_kill_marks_143 {T} `{TerminalEmu T}
    (st : DockerExecutor.DockerState (T:=T)) (k signal : string) :
  (ProcessRegistry.get k st.(DockerExecutor.registry) = None ->
     DockerExecutor.kill st k signal = (err process_not_found, st)) /\
  (forall p, ProcessRegistry.get k st.(DockerExecutor.registry) = Some p ->
     status p = Terminated -> DockerExecutor.kill st k signal = (err process_terminated, st)) /\
  (forall p, ProcessRegistry.get k st.(DockerExecutor.registry) = Some p ->
     status p = Running -> ~ In k st.(DockerExecutor.execStreams) ->
     DockerExecutor.kill st k signal = (err stream_not_found, st)) /\
  (forall p, ProcessRegistry.get k st.(DockerExecutor.registry) = Some p ->
     status p = Running -> In k st.(DockerExecutor.execStreams) ->
     fst (DockerExecutor.kill st k signal) = ok tt /\
     In k (snd (DockerExecutor.kill st k signal)).(DockerExecutor.destroyed) /\
     ProcessRegistry.get k (snd (DockerExecutor.kill st k signal)).(DockerExecutor.registry)
       = Some (set_exitCode (Some 143) (set_status Terminated p))).
Proof.
  unfold DockerExecutor.kill.
  split; [intros G; now rewrite G|].
  split; [intros p G Hs; now rewrite G, Hs|].
  assert (Hex : existsb (String.eqb k) st.(DockerExecutor.execStreams) = true
                <-> In k st.(DockerExecutor.execStreams)).
  { rewrite existsb_exists. split.
    - intros [x [Hx E]]. apply String.eqb_eq in E. now subst.
    - intros Hin. exists k. split; auto. apply String.eqb_refl. }
  split.
  - intros p G Hs Hn. rewrite G, Hs. simpl.
    destruct (existsb (String.eqb k) _) eqn:E; [exfalso; apply Hn, Hex; reflexivity|reflexivity].
  - intros p G Hs Hin. rewrite G, Hs. simpl.
    apply Hex in Hin. rewrite Hin. simpl. split; [reflexivity|]. split.
    + apply in_or_app. right. now left.
    + rewrite RegistryFacts.get_update, G; [reflexivity|apply mark_killed_pid].
Qed.

(** ** [stdout]: the output window *)








Lemma slice_neg {A} (n : Z) (l : list A) :
  0 < n -> js_slice_from (- n) l = skipn (length l - Z.to_nat n) l.
Proof.
  intros Hn. unfold js_slice_from.
  replace (- n <? 0) with true by (symmetry; apply Z.ltb_lt; lia).
  f_equal. lia.
Qed.

(** [C5] For both executors, [stdout(id, lines)] fails with
    [process_not_found] on an unknown id; on a registered entity without
    [tty], for [lines > 0], it returns the last [lines] newline-separated
    segments of its stdout and of its stderr, rejoined with newlines.  On a
    TTY entity with a terminal the call throws instead of returning the
    rendered terminal, because reading the terminal buffer throws.  For
    [lines = 0] the window is not empty: a non-TTY entity whose stdout is
    [a\nb] gets all of it back. *)
Theorem stdout_window {T} `{TerminalEmu T} (k : string) :
  let window (n : Z) (s : jsstr) :=
    join_nl (skipn (length (split_nl s) - Z.to_nat n) (split_nl s)) in
  (forall (st : HostExecutor.HostState (T:=T)) lines,
     ProcessRegistry.get k st.(HostExecutor.registry) = None ->
     HostExecutor.stdout st k lines = normal (err process_not_found)) /\
  (forall (st : DockerExecutor.DockerState (T:=T)) lines,
     ProcessRegistry.get k st.(DockerExecutor.registry) = None ->
     DockerExecutor.stdout st k lines = normal (err process_not_found)) /\
  (forall (st : HostExecutor.HostState (T:=T)) p n,
     ProcessRegistry.get k st.(HostExecutor.registry) = Some p -> tty p = false -> 0 < n ->
     HostExecutor.stdout st k (Some n)
     = normal (ok (window n (stdout p), window n (stderr p)))) /\
  (forall (st : DockerExecutor.DockerState (T:=T)) p n,
     ProcessRegistry.get k st.(DockerExecutor.registry) = Some p -> tty p = false -> 0 < n ->
     DockerExecutor.stdout st k (Some n)
     = normal (ok (window n (stdout p), window n (stderr p)))) /\
  (forall (st : HostExecutor.HostState (T:=T)) p lines,
     ProcessRegistry.get k st.(HostExecutor.registry) = Some p ->
     tty p = true -> terminal p <> None ->
     HostExecutor.stdout st k lines = thrown) /\
  (forall (st : DockerExecutor.DockerState (T:=T)) p lines,
     ProcessRegistry.get k st.(DockerExecutor.registry) = Some p ->
     tty p = true -> terminal p <> None ->
     DockerExecutor.stdout st k lines = thrown) /\
  HostExecutor.stdout
    (sample_host_state [sample_process "host-1" false Running 0 (js "a" ++ [newline] ++ js "b")])
    "host-1" (Some 0)
  = normal (ok (js "a" ++ [newline] ++ js "b", [])) /\
  DockerExecutor.stdout
    (sample_docker_state [sample_process "docker-1" false Running 0 (js "a" ++ [newline] ++ js "b")] [])
    "docker-1" (Some 0)
  = normal (ok (js "a" ++ [newline] ++ js "b", [])).
Proof.
  intros window.
  split; [intros st lines G; unfold HostExecutor.stdout; now rewrite G|].
  split; [intros st lines G; unfold DockerExecutor.stdout; now rewrite G|].
  split; [intros st p n G Ht Hn; unfold HostExecutor.stdout; rewrite G, Ht; cbn [andb];
          now rewrite !(slice_neg n) by exact Hn|].
  split; [intros st p n G Ht Hn; unfold DockerExecutor.stdout; rewrite G, Ht; cbn [andb];
          now rewrite !(slice_neg n) by exact Hn|].
  split; [intros st p lines G Ht Hterm; unfold HostExecutor.stdout;
          rewrite G, Ht, (getTerminalBuffer_throws p Hterm);
          destruct (terminal p); [reflexivity|congruence]|].
  split; [intros st p lines G Ht Hterm; unfold DockerExecutor.stdout;
          rewrite G, Ht, (getTerminalBuffer_throws p Hterm);
          destruct (terminal p); [reflexivity|congruence]|].
  split; reflexivity.
Qed.

(** ** Spawn results *)




(** ** Runs of the registry and of a foreground spawn *)

Lemma registry_add_prunes_terminated_witness :
  NoDup (map pid [sample_process "host-1" false Terminated 1 [];
                  sample_process "host-2" false Terminated 2 [];
                  sample_process "host-3" false Terminated 3 [];
                  sample_process "host-4" false Terminated 4 [];
                  sample_process "host-5" false Terminated 5 [];
                  sample_process "host-6" false Terminated 6 []]) /\
  length (filter ProcessRegistry.is_terminated
            (ProcessRegistry.add (sample_process "host-7" false Running 7 [])
               [sample_process "host-1" false Terminated 1 [];
                sample_process "host-2" false Terminated 2 [];
                sample_process "host-3" false Terminated 3 [];
                sample_process "host-4" false Terminated 4 [];
                sample_process "host-5" false Terminated 5 [];
                sample_process "host-6" false Terminated 6 []])) = 5%nat.
Proof.
  assert (Hn : NoDup (map pid [sample_process "host-1" false Terminated 1 [];
                  sample_process "host-2" false Terminated 2 [];
                  sample_process "host-3" false Terminated 3 [];
                  sample_process "host-4" false Terminated 4 [];
                  sample_process "host-5" false Terminated 5 [];
                  sample_process "host-6" false Terminated 6 []]))
    by (simpl; repeat constructor; simpl; intuition discriminate).
  split; [exact Hn|].
  destruct (registry_add_prunes_terminated (sample_process "host-7" false Running 7 []) _ Hn)
    as [L _].
  rewrite L. vm_compute. reflexivity.
Defined.



(** * Further properties of the registry, the executors, the configuration
      and the tool dispatch *)

Module RegistryMore.
Import ProcessRegistry.
Section More.
Context {T : Type}.

Lemma get_some k (r : list (Process T)) q :
  get k r = Some q -> In q r /\ pid q = k.
Proof.
  unfold get. intros E. apply find_some in E as [Hin Eq].
  split; [exact Hin|]. now apply String.eqb_eq.
Qed.

Lemma get_in_exists (r : list (Process T)) p :
  In p r -> exists q, get (pid p) r = Some q.
Proof.
  intros Hin. unfold get. destruct (find _ r) as [q|] eqn:E; [now exists q|].
  exfalso. apply (find_none _ _ E) in Hin. now rewrite String.eqb_refl in Hin.
Qed.

Lemma get_delete_same k (r : list (Process T)) : get k (delete k r) = None.
Proof.
  induction r as [|x r IH]; [reflexivity|]. unfold delete in *; simpl.
  destruct (String.eqb (pid x) k) eqn:E; simpl; [exact IH|].
  unfold get in *; simpl. now rewrite E.
Qed.

Lemma get_delete_other j k (r : list (Process T)) :
  j <> k -> get j (delete k r) = get j r.
Proof.
  intros Hjk. induction r as [|x r IH]; [reflexivity|]. unfold delete, get in *; simpl.
  destruct (String.eqb (pid x) k) eqn:E; simpl.
  - apply String.eqb_eq in E. rewrite <- IH.
    assert (Hx : String.eqb (pid x) j = false) by (apply String.eqb_neq; congruence).
    now rewrite Hx.
  - destruct (String.eqb (pid x) j); [reflexivity|exact IH].
Qed.

Lemma map_set_fresh (v : Process T) r :
  ~ In (pid v) (map pid r) -> map_set v r = r ++ [v].
Proof.
  intros Hf. unfold map_set.
  destruct (existsb _ r) eqn:E; [|reflexivity].
  apply existsb_exists in E as [x [Hx Ex]]. apply String.eqb_eq in Ex.
  exfalso. apply Hf. rewrite <- Ex. now apply in_map.
Qed.

Lemma map_set_keeps_other (v : Process T) r q :
  In q r -> pid q <> pid v -> In q (map_set v r).
Proof.
  intros Hq Hne. unfold map_set. destruct (existsb _ r).
  - apply in_map_iff. exists q. split; [|exact Hq].
    now rewrite (proj2 (String.eqb_neq _ _) Hne).
  - apply in_or_app. now left.
Qed.

Lemma sort_desc_equal (l : list (Process T)) t :
  (forall e, In e l -> createdAt e = t) -> sort_desc l = l.
Proof.
  induction l as [|x l IH]; intros Ht; [reflexivity|]. simpl.
  rewrite IH by (intros e He; apply Ht; now right).
  destruct l as [|y l]; [reflexivity|]. simpl.
  rewrite (Ht x (or_introl eq_refl)), (Ht y (or_intror (or_introl eq_refl))).
  now rewrite Z.leb_refl.
Qed.

Lemma filter_comm (f g : Process T -> bool) (l : list (Process T)) :
  filter f (filter g l) = filter g (filter f l).
Proof.
  rewrite !RegistryFacts.filter_filter_and. apply filter_ext. intros x. apply andb_comm.
Qed.

Lemma filter_removed_all (b c : list (Process T)) :
  (forall x, In x c -> In x b) -> filter (RegistryFacts.not_removed b) c = [].
Proof.
  induction c as [|x c IH]; intros Hc; [reflexivity|]. simpl.
  assert (Hx : RegistryFacts.not_removed b x = false).
  { apply RegistryFacts.not_removed_spec. exists x. split; [apply Hc; now left|reflexivity]. }
  rewrite Hx. apply IH. intros y Hy. apply Hc. now right.
Qed.

Lemma filter_removed_none (b c : list (Process T)) :
  (forall x, In x c -> ~ In (pid x) (map pid b)) -> filter (RegistryFacts.not_removed b) c = c.
Proof.
  induction c as [|x c IH]; intros Hc; [reflexivity|]. simpl.
  assert (Hx : RegistryFacts.not_removed b x = true).
  { destruct (RegistryFacts.not_removed b x) eqn:E; [reflexivity|].
    apply RegistryFacts.not_removed_spec in E as [q [Hq Eq]].
    exfalso. apply (Hc x (or_introl eq_refl)). rewrite <- Eq. now apply in_map. }
  rewrite Hx, IH; [reflexivity|]. intros y Hy. apply Hc. now right.
Qed.

(** Deleting the pids of [skipn n l] from a list [l] of distinct pids keeps
    its first [n] elements. *)
Lemma filter_not_removed_skipn n (l : list (Process T)) :
  NoDup (map pid l) -> filter (RegistryFacts.not_removed (skipn n l)) l = firstn n l.
Proof.
  intros Hnd.
  transitivity (filter (RegistryFacts.not_removed (skipn n l)) (firstn n l ++ skipn n l));
    [now rewrite firstn_skipn|]. rewrite filter_app.
  rewrite (filter_removed_all (skipn n l) (skipn n l)) by auto. rewrite app_nil_r.
  apply filter_removed_none. intros x Hx Hin.
  rewrite <- (firstn_skipn n l), map_app in Hnd.
  exact (RegistryFacts.nodup_app_disjoint _ _ _ Hnd (in_map pid _ _ Hx) Hin).
Qed.

Lemma getStats_fold (r : list (Process T)) a b :
  fold_left (fun (acc : nat * nat) p =>
               let '(running, terminated) := acc in
               if status_eqb p.(status) Running then (S running, terminated)
               else (running, S terminated)) r (a, b)
  = ((a + count_running r)%nat, (b + length (filter is_terminated r))%nat).
Proof.
  unfold count_running. revert a b; induction r as [|x r IH]; intros a b; simpl.
  - now rewrite !Nat.add_0_r.
  - unfold is_terminated at 1. destruct (status x); simpl; rewrite IH; f_equal; lia.
Qed.

Lemma add_terminated_le (p : Process T) r :
  NoDup (map pid r) -> (length (filter is_terminated (add p r)) <= maxTerminatedProcesses)%nat.
Proof.
  intros Hnd. unfold add. set (r1 := map_set p r).
  assert (Hnd1 : NoDup (map pid r1)) by now apply RegistryFacts.map_set_nodup.
  destruct (RegistryFacts.prune_facts r1 Hnd1) as [Hpr [Hts _]].
  set (ts := terminated_sorted r1) in *.
  transitivity (length (firstn maxTerminatedProcesses ts)).
  - apply NoDup_incl_length.
    + apply NoDup_filter. apply (NoDup_map_inv pid). now apply RegistryFacts.prune_nodup.
    + intros e He. apply filter_In in He as [He Ht].
      apply Hpr in He as [He1 Hnr].
      assert (Hin : In e ts) by now apply Hts.
      rewrite <- (firstn_skipn maxTerminatedProcesses ts) in Hin.
      apply in_app_or in Hin as [Hin|Hin]; [exact Hin|].
      exfalso. assert (Hf : RegistryFacts.not_removed (skipn maxTerminatedProcesses ts) e = false)
        by (apply RegistryFacts.not_removed_spec; now exists e).
      congruence.
  - rewrite length_firstn. apply Nat.le_min_l.
Qed.

End More.
End RegistryMore.

(** [X1] [delete(pid)] removes exactly the entry of [pid]: afterwards [get]
    misses it, and every other key is looked up as before. *)
Theorem registry_delete_get {T} (k j : string) (r : list (Process T)) :
  ProcessRegistry.get k (ProcessRegistry.delete k r) = None /\
  (j <> k -> ProcessRegistry.get j (ProcessRegistry.delete k r) = ProcessRegistry.get j r).
Proof.
  split; [apply RegistryMore.get_delete_same|apply RegistryMore.get_delete_other].
Qed.

(** [X2] On a registry keyed by distinct pids, after [add(p)] of a running
    entity [get(p.pid)] returns [p], and every running entity stored under
    another key is still returned by [get]: an insertion only ever evicts
    terminated entities. *)
Theorem registry_add_get {T} (p : Process T) (r : list (Process T)) :
  NoDup (map pid r) ->
  (status p = Running -> ProcessRegistry.get (pid p) (ProcessRegistry.add p r) = Some p) /\
  (forall j q, j <> pid p -> ProcessRegistry.get j r = Some q -> status q = Running ->
     ProcessRegistry.get j (ProcessRegistry.add p r) = Some q).
Proof.
  intros Hnd. split.
  - intros Hrun. apply RegistryFacts.get_in_nodup.
    + now apply RegistryFacts.add_nodup.
    + now apply RegistryFacts.add_keeps_new.
  - intros j q Hj Hq Hrun. apply RegistryMore.get_some in Hq as [Hq <-].
    apply RegistryFacts.get_in_nodup; [now apply RegistryFacts.add_nodup|].
    apply RegistryFacts.prune_keeps_running; [now apply RegistryFacts.map_set_nodup| |exact Hrun].
    now apply RegistryMore.map_set_keeps_other.
Qed.

Lemma registry_add_get_witness :
  NoDup (map pid [sample_process "host-1" false Running 0 []]) /\
  ProcessRegistry.get "host-1" (ProcessRegistry.add (sample_process "host-2" false Running 1 [])
                                  [sample_process "host-1" false Running 0 []])
  = Some (sample_process "host-1" false Running 0 []).
Proof.
  assert (Hnd : NoDup (map pid [sample_process "host-1" false Running 0 []]))
    by (simpl; constructor; [intros []|constructor]).
  split; [exact Hnd|].
  apply (proj2 (registry_add_get (sample_process "host-2" false Running 1 [])
                  [sample_process "host-1" false Running 0 []] Hnd)); [discriminate|reflexivity|reflexivity].
Defined.

(** [X3] The sort in [pruneTerminated] is stable, so among terminated
    entities created at the same time the ones inserted last are evicted:
    when a new pid is added and every terminated entity has the same
    [createdAt], the terminated entities kept are the first five in
    insertion order. *)
Theorem registry_add_ties_keep_oldest {T} (p : Process T) (r : list (Process T)) (t : Z) :
  NoDup (map pid r) -> ~ In (pid p) (map pid r) ->
  (forall e, In e (r ++ [p]) -> status e = Terminated -> createdAt e = t) ->
  filter ProcessRegistry.is_terminated (ProcessRegistry.add p r)
  = firstn ProcessRegistry.maxTerminatedProcesses
      (filter ProcessRegistry.is_terminated (r ++ [p])).
Proof.
  intros Hnd Hfresh Ht. unfold ProcessRegistry.add.
  rewrite (RegistryMore.map_set_fresh p r Hfresh), RegistryFacts.prune_filter.
  set (r1 := r ++ [p]).
  assert (Hnd1 : NoDup (map pid r1)).
  { unfold r1. rewrite map_app. simpl. apply NoDup_app; [exact Hnd| |].
    - constructor; [intros []|constructor].
    - intros x Hx [Hp|[]]. subst x. contradiction. }
  unfold ProcessRegistry.terminated_sorted.
  rewrite (RegistryMore.sort_desc_equal _ t).
  2:{ intros e He. apply filter_In in He as [He Hte].
      apply Ht; [exact He|]. now apply RegistryFacts.is_terminated_iff. }
  rewrite RegistryMore.filter_comm. apply RegistryMore.filter_not_removed_skipn.
  now apply RegistryFacts.nodup_pid_filter.
Qed.

Lemma registry_add_ties_keep_oldest_witness :
  let r := [sample_process "host-1" false Terminated 0 []; sample_process "host-2" false Terminated 0 [];
            sample_process "host-3" false Terminated 0 []; sample_process "host-4" false Terminated 0 [];
            sample_process "host-5" false Terminated 0 []] in
  let p := sample_process "host-6" false Terminated 0 [] in
  NoDup (map pid r) /\ ~ In (pid p) (map pid r) /\
  map pid (filter ProcessRegistry.is_terminated (ProcessRegistry.add p r))
  = ["host-1"; "host-2"; "host-3"; "host-4"; "host-5"]%string.
Proof.
  intros r p.
  assert (Hnd : NoDup (map pid r)) by (simpl; repeat constructor; simpl; intuition discriminate).
  assert (Hf : ~ In (pid p) (map pid r)) by (simpl; intuition discriminate).
  split; [exact Hnd|]. split; [exact Hf|].
  rewrite (registry_add_ties_keep_oldest p r 0 Hnd Hf); [reflexivity|].
  intros e He _. simpl in He. intuition (subst; reflexivity).
Defined.

(** [X4] [getStats()] counts the running entities and, as [terminated],
    all the others, which add up to [total]; right after an [add] on a
    registry of distinct pids it never reports more than five terminated
    entities. *)
Theorem registry_getStats_counts {T} (r : list (Process T)) :
  let s := ProcessRegistry.getStats r in
  stats_running s = length (filter (fun p => status_eqb p.(status) Running) r) /\
  stats_terminated s = length (filter ProcessRegistry.is_terminated r) /\
  (stats_running s + stats_terminated s = stats_total s)%nat /\
  (forall p, NoDup (map pid r) ->
     (stats_terminated (ProcessRegistry.getStats (ProcessRegistry.add p r)) <= 5)%nat).
Proof.
  intros s. unfold s. clear s. unfold ProcessRegistry.getStats. rewrite RegistryMore.getStats_fold. simpl.
  split; [reflexivity|]. split; [reflexivity|]. split.
  - unfold count_running, ProcessRegistry.is_terminated.
    induction r as [|x r IH]; [reflexivity|]. simpl.
    destruct (status x); simpl; lia.
  - intros p Hnd. rewrite RegistryMore.getStats_fold. simpl.
    exact (RegistryMore.add_terminated_le p r Hnd).
Qed.

Module EscapeMore.

Lemma replace_esc_cons2 c o a b (r : jsstr) :
  replace_esc c o (a :: b :: r)
  = if (a =? backslash) && (b =? c) then o :: replace_esc c o r
    else a :: replace_esc c o (b :: r).
Proof. reflexivity. Qed.

Lemma replace_esc_len c o n (s : jsstr) :
  (length s <= n)%nat -> (length (replace_esc c o s) <= length s)%nat.
Proof.
  revert s; induction n as [|n IH]; intros s Hs.
  - destruct s; simpl in *; lia.
  - destruct s as [|a [|b r]]; [simpl; lia|simpl; lia|].
    rewrite replace_esc_cons2. simpl in Hs.
    destruct (_ && _); simpl.
    + assert (H1 := IH r ltac:(lia)). lia.
    + assert (H1 := IH (b :: r) ltac:(simpl; lia)). simpl in H1 |- *. lia.
Qed.

Lemma replace_hex2_cons a (t : jsstr) :
  replace_hex2 (a :: t)
  = match t with
    | b :: h1 :: h2 :: r =>
        if (a =? backslash) && (b =? 120) && is_hex h1 && is_hex h2
        then (16 * hex_val h1 + hex_val h2) :: replace_hex2 r
        else a :: replace_hex2 t
    | _ => a :: replace_hex2 t
    end.
Proof. reflexivity. Qed.

Lemma replace_hex2_len n (s : jsstr) :
  (length s <= n)%nat -> (length (replace_hex2 s) <= length s)%nat.
Proof.
  revert s; induction n as [|n IH]; intros s Hs.
  - destruct s; simpl in *; lia.
  - destruct s as [|a t]; [simpl; lia|]. rewrite replace_hex2_cons.
    assert (Ht := IH t ltac:(simpl in Hs; lia)).
    destruct t as [|b [|h1 [|h2 r]]]; try (simpl length; lia).
    destruct (_ && _ && _ && _).
    + assert (Hr := IH r ltac:(simpl in Hs; lia)). simpl length in *. lia.
    + simpl length in *. lia.
Qed.

Lemma replace_hex4_cons a (t : jsstr) :
  replace_hex4 (a :: t)
  = match t with
    | b :: h1 :: h2 :: h3 :: h4 :: r =>
        if (a =? backslash) && (b =? 117) && is_hex h1 && is_hex h2
           && is_hex h3 && is_hex h4
        then (4096 * hex_val h1 + 256 * hex_val h2 + 16 * hex_val h3 + hex_val h4)
               :: replace_hex4 r
        else a :: replace_hex4 t
    | _ => a :: replace_hex4 t
    end.
Proof. reflexivity. Qed.

Lemma replace_hex4_len n (s : jsstr) :
  (length s <= n)%nat -> (length (replace_hex4 s) <= length s)%nat.
Proof.
  revert s; induction n as [|n IH]; intros s Hs.
  - destruct s; simpl in *; lia.
  - destruct s as [|a t]; [simpl; lia|]. rewrite replace_hex4_cons.
    assert (Ht := IH t ltac:(simpl in Hs; lia)).
    destruct t as [|b [|h1 [|h2 [|h3 [|h4 r]]]]]; try (simpl length; lia).
    destruct (_ && _ && _ && _ && _ && _).
    + assert (Hr := IH r ltac:(simpl in Hs; lia)). simpl length in *. lia.
    + simpl length in *. lia.
Qed.

End EscapeMore.

(** [X5] [parseEscapeSequences] never lengthens its input: each of its five
    replacements turns a match of two or more code units into one, so the
    text written to stdin is at most as long as the [input] given. *)
Theorem parseEscapeSequences_shrinks (s : jsstr) :
  (length (parseEscapeSequences s) <= length s)%nat.
Proof.
  unfold parseEscapeSequences.
  set (s1 := replace_esc 110 10 s). set (s2 := replace_esc 114 13 s1).
  set (s3 := replace_esc 116 9 s2). set (s4 := replace_hex2 s3).
  assert (H1 : (length s1 <= length s)%nat) by (apply (EscapeMore.replace_esc_len _ _ (length s)); lia).
  assert (H2 : (length s2 <= length s1)%nat) by (apply (EscapeMore.replace_esc_len _ _ (length s1)); lia).
  assert (H3 : (length s3 <= length s2)%nat) by (apply (EscapeMore.replace_esc_len _ _ (length s2)); lia).
  assert (H4 : (length s4 <= length s3)%nat) by (apply (EscapeMore.replace_hex2_len (length s3)); lia).
  assert (H5 : (length (replace_hex4 s4) <= length s4)%nat) by (apply (EscapeMore.replace_hex4_len (length s4)); lia).
  lia.
Qed.

Module PsMore.
Section More.
Context {T : Type}.

Lemma info_entries (toISO : Z -> string) (r : list (Process T)) :
  Forall (fun i => i <> None) (map (fun p => ProcessRegistry.info toISO p.(pid) r) r) /\
  (NoDup (map pid r) ->
   map (fun p => ProcessRegistry.info toISO p.(pid) r) r
   = map (fun p => Some (mkProcessInfo p.(pid) p.(command) p.(status) p.(exitCode)
                          p.(cwd) p.(tty) (toISO p.(createdAt)))) r).
Proof.
  split.
  - apply Forall_forall. intros i Hi. apply in_map_iff in Hi as [p [<- Hp]].
    unfold ProcessRegistry.info.
    destruct (RegistryMore.get_in_exists r p Hp) as [q Hq]. now rewrite Hq.
  - intros Hnd. apply map_ext_in. intros p Hp. unfold ProcessRegistry.info.
    now rewrite (RegistryFacts.get_in_nodup r p Hnd Hp).
Qed.

End More.
End PsMore.

(** [X6] [ps()] of either executor never yields [undefined]: every entity
    of [registry.list()] is found again by [registry.info]; on a registry of
    distinct pids it lists, in insertion order, each entity's pid, command,
    status, exit code, cwd, tty flag and creation time. *)
Theorem ps_lists_registry {T} `{TerminalEmu T} (toISO : Z -> string) :
  (forall st : HostExecutor.HostState (T:=T),
     Forall (fun i => i <> None) (HostExecutor.ps toISO st) /\
     (NoDup (map pid st.(HostExecutor.registry)) ->
      HostExecutor.ps toISO st
      = map (fun p => Some (mkProcessInfo p.(pid) p.(command) p.(status) p.(exitCode)
                             p.(cwd) p.(tty) (toISO p.(createdAt)))) st.(HostExecutor.registry))) /\
  (forall st : DockerExecutor.DockerState (T:=T),
     Forall (fun i => i <> None) (DockerExecutor.ps toISO st) /\
     (NoDup (map pid st.(DockerExecutor.registry)) ->
      DockerExecutor.ps toISO st
      = map (fun p => Some (mkProcessInfo p.(pid) p.(command) p.(status) p.(exitCode)
                             p.(cwd) p.(tty) (toISO p.(createdAt)))) st.(DockerExecutor.registry))).
Proof.
  split; intros st; apply PsMore.info_entries.
Qed.

(** [X7] The server's tool switch reaches the executor only for [spawn],
    [stdin] and [kill]; [ps] and [stdout] call [listProcesses] and
    [getOutput], which neither executor class defines, so they always end in
    a [tool_error] result; any other name is an [unknown_tool] error. *)
Theorem callTool_dispatch (name : string) :
  (Tools.callTool name = Tools.executor_called name <->
   In name ["spawn"; "stdin"; "kill"]%string) /\
  (In name ["ps"; "stdout"]%string ->
   exists m, Tools.callTool name = Tools.error_result "tool_error" m) /\
  (~ In name ["spawn"; "ps"; "stdin"; "stdout"; "kill"]%string ->
   Tools.callTool name = Tools.error_result "unknown_tool" (String.append "Unknown tool: " name)).
Proof.
  unfold Tools.callTool, Tools.handler_method.
  destruct (String.eqb name "spawn") eqn:E1;
    [apply String.eqb_eq in E1; subst; simpl; intuition (try discriminate; eauto)|].
  destruct (String.eqb name "ps") eqn:E2;
    [apply String.eqb_eq in E2; subst; simpl; intuition (try discriminate; eauto)|].
  destruct (String.eqb name "stdin") eqn:E3;
    [apply String.eqb_eq in E3; subst; simpl; intuition (try discriminate; eauto)|].
  destruct (String.eqb name "stdout") eqn:E4;
    [apply String.eqb_eq in E4; subst; simpl; intuition (try discriminate; eauto)|].
  destruct (String.eqb name "kill") eqn:E5;
    [apply String.eqb_eq in E5; subst; simpl; intuition (try discriminate; eauto)|].
  apply String.eqb_neq in E1, E2, E3, E4, E5.
  split; [|split].
  - split; [discriminate|]. intros [H|[H|[H|[]]]]; congruence.
  - intros [H|[H|[]]]; congruence.
  - intros _. reflexivity.
Qed.

Module ConfigMore.
Import Config.

Lemma trim_start_suffix (s : jsstr) : exists pre, s = pre ++ trim_start s.
Proof.
  induction s as [|c r [pre IH]]; [now exists []|]. simpl.
  destruct (is_js_space c); [exists (c :: pre); simpl; now f_equal|now exists []].
Qed.

Lemma trim_start_head (s : jsstr) c r : trim_start s = c :: r -> is_js_space c = false.
Proof.
  induction s as [|a s IH]; simpl; [discriminate|].
  destruct (is_js_space a) eqn:E; [exact IH|]. intros H. injection H as <- _. exact E.
Qed.

Lemma trim_ends (s : jsstr) :
  trim s <> [] -> is_js_space (hd 0 (trim s)) = false /\ is_js_space (last (trim s) 0) = false.
Proof.
  unfold trim. set (u := trim_start s). set (w := trim_start (rev u)).
  destruct w as [|c w'] eqn:Ew; [simpl; congruence|]. intros _. split.
  - destruct (trim_start_suffix (rev u)) as [pre Hpre]. fold w in Hpre.
    assert (Hu : u = rev w ++ rev pre) by (rewrite <- rev_app_distr, <- Hpre; now rewrite rev_involutive).
    rewrite Ew in Hu. simpl in Hu |- *.
    destruct (rev w') as [|d l] eqn:Er; simpl in Hu |- *.
    + apply (trim_start_head s c (rev pre)). exact Hu.
    + apply (trim_start_head s d ((l ++ [c]) ++ rev pre)). exact Hu.
  - simpl. rewrite last_last. apply (trim_start_head (rev u) c w'). exact Ew.
Qed.

Lemma trim_blank (s : jsstr) : Forall (fun c => is_js_space c = true) s -> trim s = [].
Proof.
  intros Hs. unfold trim.
  assert (H0 : trim_start s = []).
  { induction Hs as [|c s Hc Hs IH]; [reflexivity|]. simpl. now rewrite Hc. }
  now rewrite H0.
Qed.

Lemma split_on_chars sep (s : jsstr) piece c :
  In piece (split_on sep s) -> In c piece -> In c s /\ c <> sep.
Proof.
  revert piece; induction s as [|a r IH]; intros piece Hp Hc; simpl in Hp.
  - destruct Hp as [<-|[]]. destruct Hc.
  - destruct (a =? sep) eqn:E.
    + destruct Hp as [<-|Hp]; [destruct Hc|]. destruct (IH piece Hp Hc). split; [now right|auto].
    + apply Z.eqb_neq in E. destruct (split_on sep r) as [|p ps] eqn:Es.
      * destruct Hp as [<-|[]]. destruct Hc as [<-|[]]. split; [now left|exact E].
      * destruct Hp as [<-|Hp].
        -- destruct Hc as [<-|Hc]; [split; [now left|exact E]|].
           destruct (IH p (or_introl eq_refl) Hc). split; [now right|auto].
        -- destruct (IH piece (or_intror Hp) Hc). split; [now right|auto].
Qed.

Lemma filter_trim_nil (l : list jsstr) :
  (forall piece, In piece l -> trim piece = []) ->
  filter (fun h => Nat.ltb 0 (length h)) (map trim l) = [].
Proof.
  induction l as [|x l IH]; intros Hl; [reflexivity|]. simpl.
  rewrite (Hl x (or_introl eq_refl)). simpl. apply IH. intros p Hp. apply Hl. now right.
Qed.

Lemma trimmed_entry (l : list jsstr) h :
  In h (filter (fun h => Nat.ltb 0 (length h)) (map trim l)) ->
  h <> [] /\ is_js_space (hd 0 h) = false /\ is_js_space (last h 0) = false.
Proof.
  intros Hh. apply filter_In in Hh as [Hh Hlen]. apply in_map_iff in Hh as [x [<- _]].
  assert (Hne : trim x <> []) by (intros E; rewrite E in Hlen; discriminate).
  split; [exact Hne|]. now apply trim_ends.
Qed.

Lemma jsstr_eqb_spec (a b : jsstr) : jsstr_eqb a b = true <-> a = b.
Proof. unfold jsstr_eqb. destruct (list_eq_dec Z.eq_dec a b); split; congruence. Qed.

End ConfigMore.

(** [X8] Every entry [parseAllowedDomains] and [parsePaths] return is
    non-empty, and neither starts nor ends with white space.  An unset or
    empty variable gives [["*"]] and [[]]; a non-empty value made only of
    commas and white space gives no entry at all, so the allowed domains are
    then [[]], not [["*"]]. *)
Theorem config_parse_lists (v : option jsstr) :
  (forall h, In h (Config.parseAllowedDomains v) \/ In h (Config.parsePaths v) ->
     h <> [] /\ Config.is_js_space (hd 0 h) = false /\ Config.is_js_space (last h 0) = false) /\
  (v = None \/ v = Some [] ->
     Config.parseAllowedDomains v = [js "*"] /\ Config.parsePaths v = []) /\
  (forall s, v = Some s -> s <> [] ->
     Forall (fun c => c = Config.comma \/ Config.is_js_space c = true) s ->
     Config.parseAllowedDomains v = [] /\ Config.parsePaths v = []).
Proof.
  split; [|split].
  - intros h Hh. destruct v as [[|c s]|].
    2:{ unfold Config.parseAllowedDomains, Config.parsePaths in Hh.
        destruct Hh as [Hh|Hh]; exact (ConfigMore.trimmed_entry _ h Hh). }
    all: simpl in Hh; destruct Hh as [[<-|[]]|[]];
      split; [intros E; vm_compute in E; discriminate|split; reflexivity].
  - intros [->| ->]; split; reflexivity.
  - intros s -> Hne Hs. destruct s as [|c s]; [contradiction|].
    assert (Hb : forall piece, In piece (Config.split_on Config.comma (c :: s)) -> Config.trim piece = []).
    { intros piece Hp. apply ConfigMore.trim_blank, Forall_forall. intros d Hd.
      destruct (ConfigMore.split_on_chars _ _ _ _ Hp Hd) as [Hin Hnc].
      rewrite Forall_forall in Hs. destruct (Hs d Hin) as [E|E]; [contradiction|exact E]. }
    simpl. split; apply ConfigMore.filter_trim_nil; exact Hb.
Qed.

(** [X9] [loadConfig()] takes the mode from [PROCESS_MODE] ([host] when
    unset or empty); it builds the sandbox settings exactly in [host] mode and
    the container settings exactly in [docker] mode, [createProcessMCP] picks
    the container executor exactly when those exist, and [useExisting] holds
    exactly when [DOCKER_USE_EXISTING] is the string [true]. *)
Theorem loadConfig_mode (getenv : string -> option jsstr) (cwd : jsstr) :
  let c := Config.loadConfig getenv cwd in
  Config.mode c = Config.or_else (getenv "PROCESS_MODE"%string) (js "host") /\
  (Config.sandbox c <> None <-> Config.mode c = js "host") /\
  (Config.docker c <> None <-> Config.mode c = js "docker") /\
  (Config.executor_kind c = Config.docker_executor <-> Config.docker c <> None) /\
  (forall d, Config.docker c = Some d ->
     (Config.useExisting d = true <-> getenv "DOCKER_USE_EXISTING"%string = Some (js "true"))).
Proof.
  intros c. unfold c, Config.loadConfig, Config.executor_kind. clear c. simpl.
  set (m := Config.or_else (getenv "PROCESS_MODE"%string) (js "host")).
  split; [reflexivity|].
  destruct (Config.jsstr_eqb m (js "host")) eqn:Eh;
    [apply ConfigMore.jsstr_eqb_spec in Eh|];
  destruct (Config.jsstr_eqb m (js "docker")) eqn:Ed;
    try apply ConfigMore.jsstr_eqb_spec in Ed;
    try (rewrite Eh in Ed; discriminate).
  - split; [split; [intros _; exact Eh|discriminate]|].
    split; [split; [intros H; now contradiction H|intros E; rewrite Eh in E; discriminate]|].
    split; [split; [discriminate|intros H; now contradiction H]|].
    intros d E. discriminate.
  - split; [split; [intros H; now contradiction H|intros E; rewrite Ed in E; discriminate]|].
    split; [split; [intros _; exact Ed|discriminate]|].
    split; [split; [discriminate|intros _; reflexivity]|].
    intros d E. injection E as <-. simpl.
    destruct (getenv "DOCKER_USE_EXISTING"%string) as [v|]; [|split; discriminate].
    rewrite ConfigMore.jsstr_eqb_spec. split; [now intros ->|congruence].
  - split; [split; [intros H; now contradiction H|intros E; apply ConfigMore.jsstr_eqb_spec in E; congruence]|].
    split; [split; [intros H; now contradiction H|intros E; apply ConfigMore.jsstr_eqb_spec in E; congruence]|].
    split; [split; [discriminate|intros H; now contradiction H]|].
    intros d E. discriminate.
Qed.

Module MarkerMore.

Lemma digits_split (r : jsstr) :
  Forall (fun d => is_digit d = true) (firstn (digits_len r) r) /\
  (forall d t, skipn (digits_len r) r = d :: t -> is_digit d = false).
Proof.
  induction r as [|c r IH]; simpl.
  - split; [constructor|discriminate].
  - destruct (is_digit c) eqn:E; simpl.
    + destruct IH as [IH1 IH2]. split; [constructor; assumption|exact IH2].
    + split; [constructor|]. intros d t Hd. injection Hd as <- _. exact E.
Qed.

Lemma marker_at_spec (s a : jsstr) :
  marker_at s = Some a ->
  exists ds nl, s = js "PID:" ++ ds ++ nl ++ a /\ ds <> [] /\
    Forall (fun d => is_digit d = true) ds /\
    (nl = [newline] \/ (nl = [] /\ forall d t, a = d :: t -> is_digit d = false /\ d <> newline)).
Proof.
  unfold marker_at.
  destruct s as [|c1 [|c2 [|c3 [|c4 r]]]]; try discriminate.
  destruct ((c1 =? 80) && (c2 =? 73) && (c3 =? 68) && (c4 =? 58)) eqn:Ec; [|discriminate].
  apply andb_prop in Ec as [Ec E4]. apply andb_prop in Ec as [Ec E3].
  apply andb_prop in Ec as [E1 E2].
  apply Z.eqb_eq in E1, E2, E3, E4. subst c1 c2 c3 c4.
  destruct (Nat.eqb (digits_len r) 0) eqn:En; [discriminate|].
  apply Nat.eqb_neq in En. intros E. injection E as E.
  destruct (digits_split r) as [Hds Hafter].
  exists (firstn (digits_len r) r).
  assert (Hr : r = firstn (digits_len r) r ++ skipn (digits_len r) r) by now rewrite firstn_skipn.
  assert (Hne : firstn (digits_len r) r <> []).
  { intros Hf. apply En. destruct r as [|x r]; [reflexivity|].
    simpl in Hf |- *. destruct (is_digit x); [discriminate|reflexivity]. }
  destruct (skipn (digits_len r) r) as [|d t] eqn:Es.
  - exists []. subst a. split; [|split; [exact Hne|split; [exact Hds|right]]].
    + simpl. rewrite Hr at 1. reflexivity.
    + split; [reflexivity|]. discriminate.
  - destruct (d =? 10) eqn:Ed.
    + apply Z.eqb_eq in Ed. subst d t. exists [newline].
      split; [|split; [exact Hne|split; [exact Hds|now left]]].
      simpl. rewrite Hr at 1. reflexivity.
    + apply Z.eqb_neq in Ed. subst a. exists [].
      split; [|split; [exact Hne|split; [exact Hds|right]]].
      * simpl. rewrite Hr at 1. reflexivity.
      * split; [reflexivity|]. intros d' t' Ha. injection Ha as <- <-.
        split; [exact (Hafter d t eq_refl)|exact Ed].
Qed.

Lemma js_pid : js "PID:" = [80; 73; 68; 58].
Proof. reflexivity. Qed.

Lemma marker_at_digit d (t : jsstr) :
  is_digit d = true -> marker_at (js "PID:" ++ d :: t) <> None.
Proof.
  intros Hd. rewrite js_pid. simpl. rewrite Hd. simpl. discriminate.
Qed.

Lemma marker_at_none (x : jsstr) :
  marker_at x = None <-> ~ exists d t, x = js "PID:" ++ d :: t /\ is_digit d = true.
Proof.
  split.
  - intros Hn [d [t [-> Hd]]]. exact (marker_at_digit d t Hd Hn).
  - intros Hno. destruct (marker_at x) as [a|] eqn:E; [|reflexivity].
    exfalso. apply marker_at_spec in E as [ds [nl [Ex [Hne [Hds _]]]]].
    destruct ds as [|d ds]; [contradiction|]. apply Hno.
    exists d, (ds ++ nl ++ a). split; [exact Ex|]. now inversion Hds.
Qed.

Lemma find_cons c (r : jsstr) :
  find_pid_marker (c :: r)
  = match marker_at (c :: r) with
    | Some a => Some ([], a)
    | None => option_map (fun ba => (c :: fst ba, snd ba)) (find_pid_marker r)
    end.
Proof. reflexivity. Qed.

Lemma find_some_spec (s b a : jsstr) :
  find_pid_marker s = Some (b, a) ->
  s = b ++ skipn (length b) s /\ marker_at (skipn (length b) s) = Some a /\
  (forall i, (i < length b)%nat -> marker_at (skipn i s) = None).
Proof.
  revert b; induction s as [|c r IH]; intros b E; [discriminate|]. rewrite find_cons in E.
  destruct (marker_at (c :: r)) as [a'|] eqn:Em.
  - injection E as <- <-. simpl. split; [reflexivity|]. split; [exact Em|]. intros i Hi; lia.
  - destruct (find_pid_marker r) as [[b' a']|] eqn:Er; [|discriminate].
    simpl in E. injection E as <- <-.
    destruct (IH b' eq_refl) as [H1 [H2 H3]]. simpl.
    split; [now f_equal|]. split; [exact H2|].
    intros [|i] Hi; [exact Em|]. change (marker_at (skipn i r) = None). apply H3. simpl in Hi. lia.
Qed.

Lemma find_none_spec (s : jsstr) :
  find_pid_marker s = None <-> forall i, marker_at (skipn i s) = None.
Proof.
  induction s as [|c r IH].
  - split; [intros _ [|i]; reflexivity|reflexivity].
  - rewrite find_cons. destruct (marker_at (c :: r)) eqn:Em.
    + split; [discriminate|]. intros H. specialize (H 0%nat). change (marker_at (c :: r) = None) in H. congruence.
    + split.
      * intros E [|i]; [exact Em|]. change (marker_at (skipn i r) = None). apply IH.
        destruct (find_pid_marker r); [discriminate|reflexivity].
      * intros H. rewrite (proj2 IH (fun i => H (S i))). reflexivity.
Qed.

Lemma skipn_app_length (b x : jsstr) : skipn (length b) (b ++ x) = x.
Proof. induction b as [|c b IH]; [reflexivity|exact IH]. Qed.

End MarkerMore.

(** [X10] [text.match(/PID:(\d+)/)] and [text.replace(/PID:\d+\n?/, "")]
    work on the leftmost occurrence of [PID:] followed by a digit: when
    there is one, the text splits as [before], [PID:], all the digits that
    follow, an optional newline and [after], with no earlier occurrence in
    [before]; when there is none, no marker is found. *)
Theorem find_pid_marker_leftmost (s : jsstr) :
  (forall b a, find_pid_marker s = Some (b, a) ->
     (exists ds nl, s = b ++ js "PID:" ++ ds ++ nl ++ a /\ ds <> [] /\
        Forall (fun d => is_digit d = true) ds /\
        (nl = [newline] \/ (nl = [] /\ forall d t, a = d :: t -> is_digit d = false /\ d <> newline))) /\
     (forall b1 d t, s = b1 ++ js "PID:" ++ d :: t -> is_digit d = true ->
        (length b <= length b1)%nat)) /\
  (find_pid_marker s = None <->
   ~ exists b1 d t, s = b1 ++ js "PID:" ++ d :: t /\ is_digit d = true).
Proof.
  split.
  - intros b a E. destruct (MarkerMore.find_some_spec s b a E) as [Hs [Hm Hleft]]. split.
    + destruct (MarkerMore.marker_at_spec _ _ Hm) as [ds [nl [Ex Hrest]]].
      exists ds, nl. split; [|exact Hrest]. rewrite Hs at 1. now rewrite Ex.
    + intros b1 d t Hb1 Hd. destruct (Nat.le_gt_cases (length b) (length b1)) as [Hle|Hlt]; [exact Hle|].
      exfalso. apply (MarkerMore.marker_at_digit d t Hd).
      rewrite <- (Hleft (length b1) Hlt), Hb1. now rewrite MarkerMore.skipn_app_length.
  - rewrite MarkerMore.find_none_spec. split.
    + intros H [b1 [d [t [Hs Hd]]]]. apply (MarkerMore.marker_at_digit d t Hd).
      rewrite <- (H (length b1)), Hs. now rewrite MarkerMore.skipn_app_length.
    + intros Hno i. apply MarkerMore.marker_at_none. intros [d [t [Hx Hd]]].
      apply Hno. exists (firstn i s), d, t. split; [|exact Hd].
      rewrite <- Hx. symmetry. apply firstn_skipn.
Qed.

Module StderrMore.
Section More.
Context {T : Type}.

Lemma set_stderr_twice (x y : jsstr) (p : Process T) :
  set_stderr x (set_stderr y p) = set_stderr x p.
Proof. now destruct p. Qed.

Lemma set_stderr_same (p : Process T) : set_stderr (stderr p) p = p.
Proof. now destruct p. Qed.

Lemma stderr_set (x : jsstr) (p : Process T) : stderr (set_stderr x p) = x.
Proof. now destruct p. Qed.

Lemma fold_after_marker (l : list jsstr) (p : Process T) :
  fold_left stderr_step l (true, p) = (true, set_stderr (stderr p ++ concat l) p).
Proof.
  revert p; induction l as [|c l IH]; intros p; cbn [fold_left concat].
  - now rewrite app_nil_r, set_stderr_same.
  - assert (Hs : stderr_step (true, p) c = (true, set_stderr (stderr p ++ c) p)) by reflexivity.
    rewrite Hs.
    rewrite IH. now rewrite stderr_set, set_stderr_twice, app_assoc.
Qed.

Lemma fold_before_marker (l : list jsstr) (p : Process T) :
  Forall (fun c => find_pid_marker c = None) l ->
  fold_left stderr_step l (false, p) = (false, set_stderr (stderr p ++ concat l) p).
Proof.
  revert p; induction l as [|c l IH]; intros p Hl; cbn [fold_left concat].
  - now rewrite app_nil_r, set_stderr_same.
  - inversion Hl as [|c' l' Hc Hl']; subst.
    assert (Hs : stderr_step (false, p) c = (false, set_stderr (stderr p ++ c) p))
      by (unfold stderr_step, DockerExecutor.on_stderr_chunk; cbn [fst snd negb]; now rewrite Hc).
    rewrite Hs.
    rewrite IH by exact Hl'. now rewrite stderr_set, set_stderr_twice, app_assoc.
Qed.

End More.
End StderrMore.

(** [X11] The non-TTY stderr handler of the container executor, fed the
    chunks of one exec in order from a fresh [pidExtracted = false]: if
    no chunk has a [PID:] marker, all the chunks are appended to [stderr];
    otherwise only the first chunk with one loses its leftmost marker, the
    flag ends set, and every other chunk is appended as it is. *)
Theorem docker_stderr_strips_first_marker {T} (chunks : list jsstr) (p : Process T) :
  let run := fold_left (fun bp c => DockerExecutor.on_stderr_chunk (fst bp) c (snd bp))
               chunks (false, p) in
  (Forall (fun c => find_pid_marker c = None) chunks ->
   run = (false, set_stderr (stderr p ++ concat chunks) p)) /\
  (forall pre c post b a,
     chunks = pre ++ c :: post ->
     Forall (fun c => find_pid_marker c = None) pre ->
     find_pid_marker c = Some (b, a) ->
     run = (true, set_stderr (stderr p ++ concat pre ++ b ++ a ++ concat post) p)).
Proof.
  intros run. unfold run. clear run.
  change (fun bp c => DockerExecutor.on_stderr_chunk (fst bp) c (snd bp)) with (@stderr_step T).
  split; [apply StderrMore.fold_before_marker|].
  intros pre c post b a -> Hpre Hc.
  rewrite fold_left_app, (StderrMore.fold_before_marker pre p Hpre). cbn [fold_left].
  set (q := set_stderr (stderr p ++ concat pre) p).
  assert (Hs : stderr_step (false, q) c
               = (true, match b ++ a with [] => q | _ => DockerExecutor.on_stderr_text (b ++ a) q end))
    by (unfold stderr_step, DockerExecutor.on_stderr_chunk; cbn [fst snd negb]; now rewrite Hc).
  rewrite Hs.
  assert (Hq : (match b ++ a with [] => q | _ => DockerExecutor.on_stderr_text (b ++ a) q end)
               = set_stderr (stderr q ++ b ++ a) q).
  { destruct (b ++ a) eqn:E; [now rewrite app_nil_r, StderrMore.set_stderr_same|reflexivity]. }
  rewrite Hq, StderrMore.fold_after_marker. unfold q.

  rewrite !StderrMore.stderr_set, !StderrMore.set_stderr_twice. now rewrite <- !app_assoc.
Qed.

Module SpawnMore.
Section More.
Context {T : Type} `{TerminalEmu T}.

Lemma init_fields (st : HostExecutor.HostState (T:=T)) :
  let st0 := if st.(HostExecutor.initialized) then st else HostExecutor.initialize st in
  st0.(HostExecutor.registry) = st.(HostExecutor.registry) /\
  st0.(HostExecutor.pidCounter) = st.(HostExecutor.pidCounter) /\
  st0.(HostExecutor.childProcesses) = st.(HostExecutor.childProcesses).
Proof. destruct st as [r c ch []]; simpl; auto. Qed.

Lemma race_early k tmo pre t e post (s : HostExecutor.HostState (T:=T)) :
  Forall (fun te => is_completion (snd te) = false /\ fst te < tmo) pre ->
  t < tmo -> is_completion e = true ->
  HostExecutor.race k tmo (pre ++ (t, e) :: post) s
  = (true, t, HostExecutor.deliver k e (HostExecutor.run_events k pre s), post).
Proof.
  revert s; induction pre as [|[t0 e0] pre IH]; intros s Hpre Ht He; simpl.
  - apply Z.ltb_lt in Ht. now rewrite Ht, He.
  - inversion Hpre as [|? ? [He0 Ht0] Hpre']; subst. simpl in He0, Ht0.
    apply Z.ltb_lt in Ht0. rewrite Ht0, He0. now apply IH.
Qed.

Lemma new_in_add (p : Process T) r :
  NoDup (map pid r) -> status p = Running ->
  ProcessRegistry.get (pid p) (ProcessRegistry.add p r) = Some p.
Proof.
  intros Hnd Hrun. apply RegistryFacts.get_in_nodup; [now apply RegistryFacts.add_nodup|].
  now apply RegistryFacts.add_keeps_new.
Qed.

End More.
End SpawnMore.

(** [X14] When [child_process.spawn] throws, [spawn] returns
    [spawn_failed] at once; the pid counter has still moved on, no child is
    recorded, and the entity stays registered under its pid as terminated
    with exit code 1. *)
Theorem host_spawn_failure {T} `{TerminalEmu T} (cfg : Defaults) (now : Z)
    (opts : SpawnOptions) (child : Child) (st : HostExecutor.HostState (T:=T)) :
  NoDup (map pid st.(HostExecutor.registry)) ->
  spawn_throws child = true ->
  let k := String.append "host-" (decimal st.(HostExecutor.pidCounter)) in
  match HostExecutor.spawn cfg now opts child st with
  | (res, st', rest, waited) =>
      res = err spawn_failed /\ rest = [] /\ waited = 0 /\
      st'.(HostExecutor.pidCounter) = S st.(HostExecutor.pidCounter) /\
      st'.(HostExecutor.childProcesses) = st.(HostExecutor.childProcesses) /\
      exists p, ProcessRegistry.get k st'.(HostExecutor.registry) = Some p /\
        status p = Terminated /\ exitCode p = Some 1 /\ command p = opt_command opts
  end.
Proof.
  intros Hnd Ht k.
  destruct (HostExecutor.spawn cfg now opts child st) as [[[res st'] rest] waited] eqn:E.
  unfold HostExecutor.spawn in E.
  destruct (SpawnMore.init_fields st) as [F1 [F2 F3]].
  set (st0 := if HostExecutor.initialized st then st else HostExecutor.initialize st) in *.
  clearbody st0. rewrite F2 in E. fold k in E. rewrite Ht in E.
  injection E as <- <- <- <-. simpl.
  split; [reflexivity|split; [reflexivity|split; [reflexivity|]]].
  rewrite F3. split; [reflexivity|split; [reflexivity|]].
  rewrite RegistryFacts.get_update by (intros q; reflexivity).
  rewrite F1. set (p := new_process k _ _ _ _ now).
  change k with (pid p). rewrite (SpawnMore.new_in_add p _ Hnd eq_refl). simpl.
  eexists. split; [reflexivity|]. repeat split.
Qed.

Lemma host_spawn_failure_witness :
  NoDup (map pid (HostExecutor.registry (sample_host_state []))) /\
  spawn_throws (mkChild true []) = true /\
  match HostExecutor.spawn sample_defaults 0
          (mkSpawnOptions "nonexistent" None None None None None)
          (mkChild true []) (sample_host_state []) with
  | (res, _, _, _) => res = err spawn_failed
  end.
Proof.
  assert (Hn : NoDup (map pid (HostExecutor.registry (sample_host_state [])))) by constructor.
  split; [exact Hn|]. split; [reflexivity|].
  pose proof (host_spawn_failure sample_defaults 0
    (mkSpawnOptions "nonexistent" None None None None None)
    (mkChild true []) (sample_host_state []) Hn eq_refl) as W.
  cbv zeta in W. revert W.
  destruct (HostExecutor.spawn _ _ _ _ _) as [[[res st'] rest] waited].
  intros [Hr _]. exact Hr.
Defined.

(** [X15] A [background] spawn whose child starts returns at once, without
    waiting, with [status] running, no exit code and empty output; the child
    is recorded in [childProcesses], the pid counter has moved on, the
    entity is registered as running with its [promise] set, and all the
    child's callbacks are still to come. *)
Theorem host_spawn_background {T} `{TerminalEmu T} (cfg : Defaults) (now : Z)
    (opts : SpawnOptions) (child : Child) (st : HostExecutor.HostState (T:=T)) :
  NoDup (map pid st.(HostExecutor.registry)) ->
  spawn_throws child = false ->
  opt_background opts = Some true ->
  let k := String.append "host-" (decimal st.(HostExecutor.pidCounter)) in
  match HostExecutor.spawn cfg now opts child st with
  | (res, st', rest, waited) =>
      res = ok (mkSpawnResult k Running None [] []) /\ rest = schedule child /\ waited = 0 /\
      st'.(HostExecutor.pidCounter) = S st.(HostExecutor.pidCounter) /\
      st'.(HostExecutor.childProcesses) = st.(HostExecutor.childProcesses) ++ [k] /\
      exists p, ProcessRegistry.get k st'.(HostExecutor.registry) = Some p /\
        status p = Running /\ exitCode p = None /\ promise p = true
  end.
Proof.
  intros Hnd Ht Hb k.
  destruct (HostExecutor.spawn cfg now opts child st) as [[[res st'] rest] waited] eqn:E.
  unfold HostExecutor.spawn in E.
  destruct (SpawnMore.init_fields st) as [F1 [F2 F3]].
  set (st0 := if HostExecutor.initialized st then st else HostExecutor.initialize st) in *.
  clearbody st0. rewrite F2 in E. fold k in E. rewrite Ht, Hb in E.
  injection E as <- <- <- <-. simpl.
  unfold HostExecutor.entity. simpl.
  rewrite RegistryFacts.get_update by (intros q; reflexivity).
  rewrite F1. set (p := new_process k _ _ _ _ now).
  assert (G : ProcessRegistry.get k (ProcessRegistry.add p (HostExecutor.registry st)) = Some p)
    by (change k with (pid p) at 1; exact (SpawnMore.new_in_add p _ Hnd eq_refl)).
  rewrite G. simpl.
  rewrite F3.
  split; [reflexivity|]. repeat split. eexists. split; [reflexivity|]. repeat split.
Qed.

Lemma host_spawn_background_witness :
  NoDup (map pid (HostExecutor.registry (sample_host_state []))) /\
  spawn_throws (mkChild false [(100, ev_exit (Some 0))]) = false /\
  opt_background (mkSpawnOptions "sleep 1" None None None (Some true) None) = Some true /\
  match HostExecutor.spawn sample_defaults 0
          (mkSpawnOptions "sleep 1" None None None (Some true) None)
          (mkChild false [(100, ev_exit (Some 0))]) (sample_host_state []) with
  | (res, _, _, waited) => res = ok (mkSpawnResult "host-1" Running None [] []) /\ waited = 0
  end.
Proof.
  assert (Hn : NoDup (map pid (HostExecutor.registry (sample_host_state [])))) by constructor.
  split; [exact Hn|]. split; [reflexivity|]. split; [reflexivity|].
  pose proof (host_spawn_background sample_defaults 0
    (mkSpawnOptions "sleep 1" None None None (Some true) None)
    (mkChild false [(100, ev_exit (Some 0))]) (sample_host_state []) Hn eq_refl eq_refl) as W.
  cbv zeta in W. revert W.
  destruct (HostExecutor.spawn _ _ _ _ _) as [[[res st'] rest] waited].
  intros [Hr [_ [Hw _]]]. split; [exact Hr|exact Hw].
Defined.

(** [X16] A foreground spawn without [tty] whose child completes (an
    ["exit"] or ["error"] callback) before the timer returns as soon as that
    callback has run: the call waited until then, the callbacks after it are still
    to come, the child is no longer in [childProcesses], and the result is
    [terminated] with the exit code of the ["exit"] callback, or 1 after
    ["error"]. *)
Theorem host_spawn_completes_early {T} `{TerminalEmu T} (cfg : Defaults) (now : Z)
    (opts : SpawnOptions) (child : Child) (st : HostExecutor.HostState (T:=T))
    (pre post : list (Z * ChildEvent)) (t : Z) (e : ChildEvent) :
  NoDup (map pid st.(HostExecutor.registry)) ->
  spawn_throws child = false ->
  opt_background opts <> Some true ->
  opt_tty opts <> Some true ->
  let actualTimeout :=
    Z.min (match opt_timeoutMs opts with Some t => t | None => defaultTimeoutMs cfg end)
      MAX_TIMEOUT_MS in
  schedule child = pre ++ (t, e) :: post ->
  Forall (fun te => is_completion (snd te) = false /\ fst te < actualTimeout) pre ->
  t < actualTimeout -> is_completion e = true ->
  let k := String.append "host-" (decimal st.(HostExecutor.pidCounter)) in
  match HostExecutor.spawn cfg now opts child st with
  | (res, st', rest, waited) =>
      waited = t /\ rest = post /\ ~ In k st'.(HostExecutor.childProcesses) /\
      exists r, res = ok r /\ res_pid r = k /\ res_status r = Terminated /\
        res_exitCode r = match e with ev_exit c => c | _ => Some 1 end
  end.
Proof.
  intros Hnd Ht Hb Htty tmo Hs Hpre Htt He k.
  destruct (HostExecutor.spawn cfg now opts child st) as [[[res st'] rest] waited] eqn:E.
  unfold HostExecutor.spawn in E.
  destruct (SpawnMore.init_fields st) as [F1 [F2 F3]].
  set (st0 := if HostExecutor.initialized st then st else HostExecutor.initialize st) in *.
  clearbody st0. rewrite F2 in E. fold k in E. rewrite Ht in E.
  assert (Hbg : match opt_background opts with Some b => b | None => false end = false)
    by (destruct (opt_background opts) as [[]|]; congruence).
  assert (Htf : match opt_tty opts with Some b => b | None => false end = false)
    by (destruct (opt_tty opts) as [[]|]; congruence).
  rewrite Hbg, Htf in E. fold tmo in E. rewrite Hs in E.
  set (p := new_process k _ _ _ _ now) in E.
  set (st1 := HostExecutor.with_children _ _) in E.
  rewrite (SpawnMore.race_early k tmo pre t e post st1 Hpre Htt He) in E.
  unfold HostExecutor.foreground_result in E. cbv beta iota in E.
  injection E as <- <- <- <-.
  assert (G1 : ProcessRegistry.get k st1.(HostExecutor.registry) = Some p).
  { simpl. rewrite F1. change k with (pid p) at 1. exact (SpawnMore.new_in_add p _ Hnd eq_refl). }
  assert (Hd : Forall (fun te => is_completion (snd te) = false) pre)
    by (eapply Forall_impl; [|exact Hpre]; intros te [A _]; exact A).
  destruct (HostFacts.run_data_events k pre st1 p Hd G1) as [p' [G2 _]].
  set (s1 := HostExecutor.run_events k pre st1) in *.
  split; [reflexivity|split; [reflexivity|]].
  destruct e as [d|d|c|m]; try discriminate; simpl.
  - split.
    + unfold HostExecutor.delete_child. rewrite filter_In, String.eqb_refl. intros [_ F]; discriminate.
    + unfold HostExecutor.entity. simpl. rewrite RegistryFacts.get_update, G2 by (intros q; reflexivity).
      simpl. eexists. split; [reflexivity|]. repeat split.
  - split.
    + unfold HostExecutor.delete_child. rewrite filter_In, String.eqb_refl. intros [_ F]; discriminate.
    + unfold HostExecutor.entity. simpl. rewrite RegistryFacts.get_update, G2 by (intros q; reflexivity).
      simpl. eexists. split; [reflexivity|]. repeat split.
Qed.

Lemma host_spawn_completes_early_witness :
  NoDup (map pid (HostExecutor.registry (sample_host_state []))) /\
  match HostExecutor.spawn sample_defaults 0
          (mkSpawnOptions "true" None None None None None)
          (mkChild false [(5, ev_stdout (js "ok")); (10, ev_exit (Some 0)); (20, ev_stdout (js "late"))])
          (sample_host_state []) with
  | (res, _, rest, waited) =>
      waited = 10 /\ rest = [(20, ev_stdout (js "late"))] /\
      exists r, res = ok r /\ res_status r = Terminated /\ res_exitCode r = Some 0
  end.
Proof.
  assert (Hn : NoDup (map pid (HostExecutor.registry (sample_host_state [])))) by constructor.
  split; [exact Hn|].
  pose proof (host_spawn_completes_early sample_defaults 0
    (mkSpawnOptions "true" None None None None None)
    (mkChild false [(5, ev_stdout (js "ok")); (10, ev_exit (Some 0)); (20, ev_stdout (js "late"))])
    (sample_host_state []) [(5, ev_stdout (js "ok"))] [(20, ev_stdout (js "late"))] 10 (ev_exit (Some 0))
    Hn eq_refl ltac:(discriminate) ltac:(discriminate)) as W.
  cbv zeta in W.
  specialize (W eq_refl).
  specialize (W ltac:(constructor; [split; [reflexivity|vm_compute; reflexivity]|constructor])).
  specialize (W ltac:(vm_compute; reflexivity) eq_refl).
  revert W.
  destruct (HostExecutor.spawn _ _ _ _ _) as [[[res st'] rest] waited].
  intros [Hw [Hr [_ [r [Hres [_ [Hst Hex]]]]]]].
  split; [exact Hw|]. split; [exact Hr|]. exists r. split; [exact Hres|]. split; [exact Hst|exact Hex].
Defined.

(** [X17] After [cleanup()] of either executor no pid is known any more:
    [stdin], [stdout] and [kill] answer [process_not_found] for every pid
    and [ps] is empty, while the pid counter is kept, so later spawns get new
    pids.  The host executor signals exactly the children it had recorded;
    the container executor destroys every recorded exec stream. *)
Theorem cleanup_forgets_pids {T} `{TerminalEmu T} (known_signal : string -> bool)
    (toISOString : Z -> string) :
  (forall st : HostExecutor.HostState (T:=T),
     let '(signalled, st') := HostExecutor.cleanup st in
     signalled = st.(HostExecutor.childProcesses) /\
     st'.(HostExecutor.pidCounter) = st.(HostExecutor.pidCounter) /\
     st'.(HostExecutor.initialized) = false /\ HostExecutor.ps toISOString st' = [] /\
     forall k input lines signal,
       HostExecutor.stdin st' k input = (err process_not_found, st') /\
       HostExecutor.stdout st' k lines = normal (err process_not_found) /\
       HostExecutor.kill known_signal st' k signal = err process_not_found) /\
  (forall st : DockerExecutor.DockerState (T:=T),
     let st' := DockerExecutor.cleanup st in
     st'.(DockerExecutor.pidCounter) = st.(DockerExecutor.pidCounter) /\
     st'.(DockerExecutor.destroyed) = st.(DockerExecutor.destroyed) ++ st.(DockerExecutor.execStreams) /\
     st'.(DockerExecutor.execStreams) = [] /\
     st'.(DockerExecutor.initialized) = false /\ DockerExecutor.ps toISOString st' = [] /\
     forall k input lines signal,
       DockerExecutor.stdin st' k input = (err process_not_found, st') /\
       DockerExecutor.stdout st' k lines = normal (err process_not_found) /\
       DockerExecutor.kill st' k signal = (err process_not_found, st')).
Proof.
  split; intros st; repeat split.
Qed.

Module KillMore.
Section More.
Context {T : Type}.

Lemma get_update_other j k (f : Process T -> Process T) l :
  (forall p, pid (f p) = pid p) -> j <> k ->
  ProcessRegistry.get j (update_entity k f l) = ProcessRegistry.get j l.
Proof.
  intros Hf Hjk. unfold ProcessRegistry.get, update_entity.
  induction l as [|x l IH]; [reflexivity|]. simpl.
  destruct (String.eqb (pid x) k) eqn:E; simpl; [|now rewrite IH].
  rewrite Hf. apply String.eqb_eq in E.
  assert (Hx : String.eqb (pid x) j = false) by (apply String.eqb_neq; congruence).
  now rewrite Hx.
Qed.

End More.
End KillMore.

(** [X18] Once [kill] of the container executor has succeeded on a pid,
    the entity is terminated: a second [kill] of it answers
    [process_terminated] and changes nothing, [stdin] to it fails, and the
    entities of all other pids are as they were. *)
Theorem docker_kill_then_terminated {T} `{TerminalEmu T}
    (st : DockerExecutor.DockerState (T:=T)) (k signal signal' : string) (input : jsstr) :
  fst (DockerExecutor.kill st k signal) = ok tt ->
  let st' := snd (DockerExecutor.kill st k signal) in
  DockerExecutor.kill st' k signal' = (err process_terminated, st') /\
  (fst (DockerExecutor.stdin st' k input) = err not_tty \/
   fst (DockerExecutor.stdin st' k input) = err process_terminated) /\
  (forall j, j <> k ->
     ProcessRegistry.get j st'.(DockerExecutor.registry)
     = ProcessRegistry.get j st.(DockerExecutor.registry)).
Proof.
  intros Hok st'. unfold st'. clear st'. unfold DockerExecutor.kill in *.
  destruct (ProcessRegistry.get k _) as [p|] eqn:G; [|discriminate].
  destruct (negb (status_eqb (status p) Running)); [discriminate|].
  destruct (negb (existsb _ _)); [discriminate|]. simpl.
  rewrite RegistryFacts.get_update, G by (intros q; reflexivity). simpl.
  split; [reflexivity|split].
  - unfold DockerExecutor.stdin. simpl.
    rewrite RegistryFacts.get_update, G by (intros q; reflexivity). simpl.
    destruct (tty p); simpl; [right|left]; reflexivity.
  - intros j Hj. apply KillMore.get_update_other; [intros q; reflexivity|exact Hj].
Qed.

Lemma docker_kill_then_terminated_witness :
  fst (DockerExecutor.kill
         (sample_docker_state [sample_process "docker-1" true Running 0 []] ["docker-1"%string])
         "docker-1" "SIGTERM") = ok tt /\
  DockerExecutor.kill
    (snd (DockerExecutor.kill
            (sample_docker_state [sample_process "docker-1" true Running 0 []] ["docker-1"%string])
            "docker-1" "SIGTERM")) "docker-1" "SIGKILL"
  = (err process_terminated,
     snd (DockerExecutor.kill
            (sample_docker_state [sample_process "docker-1" true Running 0 []] ["docker-1"%string])
            "docker-1" "SIGTERM")).
Proof.
  assert (Hok : fst (DockerExecutor.kill
         (sample_docker_state [sample_process "docker-1" true Running 0 []] ["docker-1"%string])
         "docker-1" "SIGTERM") = ok tt) by reflexivity.
  split; [exact Hok|].
  exact (proj1 (docker_kill_then_terminated _ "docker-1" "SIGTERM" "SIGKILL" [] Hok)).
Defined.

Module StdoutMore.

Lemma slice_drop {A} (m : Z) (l : list A) :
  0 < m -> js_slice_from (- - m) l = skipn (Z.to_nat m) l.
Proof.
  intros Hm. unfold js_slice_from.
  destruct (- - m <? 0) eqn:E; [apply Z.ltb_lt in E; lia|].
  destruct (Z.le_gt_cases m (Z.of_nat (length l))) as [Hle|Hgt].
  - now replace (Z.min (- - m) (Z.of_nat (length l))) with m by lia.
  - replace (Z.min (- - m) (Z.of_nat (length l))) with (Z.of_nat (length l)) by lia.
    rewrite Nat2Z.id, skipn_all, skipn_all2; [reflexivity|lia].
Qed.

End StdoutMore.

(** [X19] A negative [lines] argument of [stdout(pid, lines)] of either
    executor on an entity without [tty] does not keep the last lines: with
    [lines = -m], [slice(m)] drops the first [m] newline-separated segments
    of stdout and of stderr and returns the rest, rejoined with newlines. *)
Theorem stdout_negative_lines {T} `{TerminalEmu T} (m : Z) (Hm : 0 < m) :
  (forall (st : HostExecutor.HostState (T:=T)) k p,
     ProcessRegistry.get k st.(HostExecutor.registry) = Some p -> p.(tty) = false ->
     HostExecutor.stdout st k (Some (- m))
     = normal (ok (join_nl (skipn (Z.to_nat m) (split_nl p.(stdout))),
                   join_nl (skipn (Z.to_nat m) (split_nl p.(stderr)))))) /\
  (forall (st : DockerExecutor.DockerState (T:=T)) k p,
     ProcessRegistry.get k st.(DockerExecutor.registry) = Some p -> p.(tty) = false ->
     DockerExecutor.stdout st k (Some (- m))
     = normal (ok (join_nl (skipn (Z.to_nat m) (split_nl p.(stdout))),
                   join_nl (skipn (Z.to_nat m) (split_nl p.(stderr)))))).
Proof.
  split; intros st k p G Ht;
    [unfold HostExecutor.stdout | unfold DockerExecutor.stdout]; rewrite G, Ht; cbn [andb];
    rewrite !(StdoutMore.slice_drop m _ Hm); reflexivity.
Qed.

(** A non-TTY entity with stdout [a], newline, [b], newline, [c], read with
    [lines = -1]: the first line is dropped, not the last one kept. *)
Lemma stdout_negative_lines_witness :
  0 < 1 /\
  HostExecutor.stdout
    (sample_host_state [sample_process "host-1" false Running 0
                          (js "a" ++ newline :: js "b" ++ newline :: js "c")])
    "host-1" (Some (- 1))
  = normal (ok (js "b" ++ newline :: js "c", [])).
Proof.
  split; [lia|].
  rewrite (proj1 (stdout_negative_lines 1 ltac:(lia))
    (sample_host_state [sample_process "host-1" false Running 0
                          (js "a" ++ newline :: js "b" ++ newline :: js "c")])
    "host-1"%string
    (sample_process "host-1" false Running 0 (js "a" ++ newline :: js "b" ++ newline :: js "c"))
    eq_refl eq_refl).
  vm_compute. reflexivity.
Defined.
